(** * multi_agent.py: a lead agent, its sub-agents and their web-search tool

    A shallow embedding of [src/multi_agent.py].  The module defines

    - [search_web], the call into the Tavily search service,
    - [format_search_results], which turns a response dictionary into text
      blocks,
    - [search_tool], the tool registered on the research agent,
    - [Task], [SubagentTasks] and [run_subagent], the tool registered on the
      lead agent, which runs one research agent per task under
      [asyncio.gather],
    - [lead_agent_instruction], the prompt of the lead agent.

    Python values are modelled by the type [value], exceptions by [py_exn],
    a call that may raise by [outcome], and code that reads the process
    environment or reaches the network by the state-and-exception monad [M]
    over [world]. *)

From Stdlib Require Import ZArith Ascii String List Bool Lia.
From stdpp Require Import base option list gmap strings.

Local Open Scope Z_scope.
Local Open Scope list_scope.
#[local] Set Warnings "-register-all".

(** ** Exceptions and results *)

(** The classes that occur in the module, and the two ways a class it does
    not name can relate to [Exception]: [OtherException] stands for any
    other class deriving from [Exception] (what [except Exception] catches),
    [BaseExceptionOnly] for one deriving from [BaseException] alone
    ([KeyboardInterrupt], [SystemExit]). *)
Inductive exn_class :=
| ValueError
| Exception
| TypeError
| KeyError
| AttributeError
| OtherException (name : string)
| BaseExceptionOnly (name : string).

(** An exception object: its class and [str(e)]. *)
Record py_exn := mk_exn { exn_cls : exn_class; exn_str : string }.

(** [isinstance(e, Exception)], the test of an [except Exception] clause. *)
Definition is_Exception (e : py_exn) : bool :=
  match exn_cls e with
  | BaseExceptionOnly _ => false
  | _ => true
  end.

Inductive outcome (A : Type) :=
| Return (a : A)
| Raise (e : py_exn).
Arguments Return {A} a.
Arguments Raise {A} e.

Definition obind {A B} (x : outcome A) (f : A -> outcome B) : outcome B :=
  match x with
  | Return a => f a
  | Raise e => Raise e
  end.

Declare Scope py_scope.
Delimit Scope py_scope with py.
Notation "'let!' x ':=' a 'in' b" := (obind a (fun x => b))
  (at level 10, x name, a at level 100, b at level 200) : py_scope.
Local Open Scope py_scope.

(** ** Python values *)

(** The values a decoded JSON document is made of.  A float is kept as a
    decimal [m * 10^e]; a dictionary keeps its insertion order. *)
Inductive value :=
| VNone
| VBool (b : bool)
| VInt (n : Z)
| VFloat (m e : Z)
| VStr (s : string)
| VList (l : list value)
| VDict (d : list (string * value)).

Definition nl : string := String (ascii_of_nat 10) EmptyString.

(** [d[k]] on the association list of a dictionary. *)
Fixpoint dict_get (k : string) (d : list (string * value)) : option value :=
  match d with
  | [] => None
  | (k', v) :: rest => if String.eqb k k' then Some v else dict_get k rest
  end.

(** [sub in s] for two strings. *)
Fixpoint is_prefix (p s : string) : bool :=
  match p, s with
  | EmptyString, _ => true
  | String a p', String b s' => Ascii.eqb a b && is_prefix p' s'
  | String _ _, EmptyString => false
  end.

Fixpoint contains (sub s : string) : bool :=
  is_prefix sub s ||
  match s with
  | EmptyString => false
  | String _ s' => contains sub s'
  end.

Fixpoint chars (s : string) : list value :=
  match s with
  | EmptyString => []
  | String a s' => VStr (String a EmptyString) :: chars s'
  end.

(** [bool(v)]. *)
Definition py_truthy (v : value) : bool :=
  match v with
  | VNone => false
  | VBool b => b
  | VInt n => negb (n =? 0)
  | VFloat m _ => negb (m =? 0)
  | VStr s => negb (String.eqb s "")
  | VList l => match l with [] => false | _ => true end
  | VDict d => match d with [] => false | _ => true end
  end.

(** The faults the interpreter raises on an operand of the wrong type. *)
Inductive py_fault :=
| NotAContainer (v : value)
| NotSubscriptable (v : value)
| BadIndex (v : value) (k : string)
| NotIterable (v : value)
| NoAttribute (v : value) (attr : string)
| MissingKey (k : string).

Definition fault_class (f : py_fault) : exn_class :=
  match f with
  | NoAttribute _ _ => AttributeError
  | MissingKey _ => KeyError
  | _ => TypeError
  end.

Section Program.

(** What the module takes from the interpreter without fixing it: [str()]
    of a value that is not a string, and the message of a fault. *)
Variable py_repr : value -> string.
Variable fault_text : py_fault -> string.

Definition fault {A} (f : py_fault) : outcome A :=
  Raise (mk_exn (fault_class f) (fault_text f)).

(** [f"{v}"]. *)
Definition py_str (v : value) : string :=
  match v with
  | VStr s => s
  | _ => py_repr v
  end.

(** [k in v] for a string [k]. *)
Definition py_in (k : string) (v : value) : outcome bool :=
  match v with
  | VDict d => Return (bool_decide (is_Some (dict_get k d)))
  | VList l =>
      Return (existsb (fun x => match x with
                                | VStr s => String.eqb s k
                                | _ => false
                                end) l)
  | VStr s => Return (contains k s)
  | _ => fault (NotAContainer v)
  end.

(** [v[k]] for a string [k]. *)
Definition py_getitem (v : value) (k : string) : outcome value :=
  match v with
  | VDict d =>
      match dict_get k d with
      | Some x => Return x
      | None => fault (MissingKey k)
      end
  | VStr _ | VList _ => fault (BadIndex v k)
  | _ => fault (NotSubscriptable v)
  end.

(** [v.get(k, default)]. *)
Definition py_get (v : value) (k : string) (default : value) : outcome value :=
  match v with
  | VDict d =>
      match dict_get k d with
      | Some x => Return x
      | None => Return default
      end
  | _ => fault (NoAttribute v "get")
  end.

(** [for x in v]: the elements the loop visits. *)
Definition py_iter (v : value) : outcome (list value) :=
  match v with
  | VList l => Return l
  | VStr s => Return (chars s)
  | VDict d => Return (map (fun kv => VStr (fst kv)) d)
  | _ => fault (NotIterable v)
  end.

(** ** format_search_results *)

(** The test [k in d and d[k]] of both conditionals. *)
Definition has_truthy (k : string) (d : value) : outcome bool :=
  let! present := py_in k d in
  if present then
    let! x := py_getitem d k in Return (py_truthy x)
  else Return false.

(** The body of [for result in search_results["results"]], threading
    [content_list]. *)
Fixpoint format_results (results : list value) (content_list : list string)
  : outcome (list string) :=
  match results with
  | [] => Return content_list
  | result :: rest =>
      let! usable := has_truthy "content" result in
      if usable then
        let! title := py_get result "title" (VStr "Unknown Title") in
        let! url := py_get result "url" (VStr "Unknown URL") in
        let! content := py_getitem result "content" in
        let formatted_content :=
          "Source: " +:+ py_str title +:+ " (" +:+ py_str url +:+ ")" +:+ nl
          +:+ "Content: " +:+ py_str content in
        format_results rest (content_list ++ [formatted_content])
      else format_results rest content_list
  end.

Definition format_search_results (search_results : value)
  : outcome (list string) :=
  let content_list := [] in
  let! summarised := has_truthy "answer" search_results in
  let! content_list :=
    (if summarised then
       let! answer := py_getitem search_results "answer" in
       Return (content_list ++ ["AI Summary: " +:+ py_str answer])
     else Return content_list) in
  let! listed := py_in "results" search_results in
  if listed then
    let! results := py_getitem search_results "results" in
    let! items := py_iter results in
    format_results items content_list
  else Return content_list.

(** ** The process environment and the network *)

(** The keyword arguments of [TavilyClient.search]. *)
Record search_request := mk_request {
  req_query : string;
  req_max_results : Z;
  req_include_answer : bool;
  req_include_raw_content : bool;
  req_search_depth : string
}.

(** One request sent to the search service, with the key it was sent under. *)
Record net_call := mk_call { call_api_key : string; call_request : search_request }.

(** What a call can observe and change outside its arguments: [os.environ]
    and the requests sent so far. *)
Record world := mk_world {
  environ : gmap string string;
  network : list net_call
}.

Definition M (A : Type) : Type := world -> outcome A * world.

Definition ret {A} (a : A) : M A := fun w => (Return a, w).
Definition raise {A} (e : py_exn) : M A := fun w => (Raise e, w).
Definition lift {A} (x : outcome A) : M A := fun w => (x, w).

Definition bind {A B} (m : M A) (f : A -> M B) : M B :=
  fun w =>
    match m w with
    | (Return a, w') => f a w'
    | (Raise e, w') => (Raise e, w')
    end.

Notation "'do!' x ':=' a 'in' b" := (bind a (fun x => b))
  (at level 10, x name, a at level 100, b at level 200) : py_scope.

(** [try: body / except Exception as e: handler e].  An exception that does
    not derive from [Exception] passes through. *)
Definition try_except {A} (body : M A) (handler : py_exn -> M A) : M A :=
  fun w =>
    match body w with
    | (Return a, w') => (Return a, w')
    | (Raise e, w') => if is_Exception e then handler e w' else (Raise e, w')
    end.

(** [os.getenv(name)]. *)
Definition os_getenv (name : string) : M (option string) :=
  fun w => (Return (environ w !! name), w).

(** [not api_key] for the result of [os.getenv]: unset or empty. *)
Definition not_key (api_key : option string) : bool :=
  match api_key with
  | None => true
  | Some k => String.eqb k ""
  end.

(** The string [api_key] is bound to when it is not [None]. *)
Definition key_text (api_key : option string) : string :=
  match api_key with
  | Some k => k
  | None => ""
  end.

(** The [tavily] package is not part of the module.  Its client is taken as
    given: the constructor keeps the key and may raise
    ([TavilyClient_init]), and [tavily_service] is the reply of the remote
    service to a request, which may depend on the requests made before it. *)
Record tavily_client := mk_client { client_api_key : string }.

Variable TavilyClient_init : string -> outcome unit.
Variable tavily_service : list net_call -> net_call -> outcome value.

Definition TavilyClient (api_key : string) : outcome tavily_client :=
  let! _ := TavilyClient_init api_key in
  Return (mk_client api_key).

(** [tavily_client.search(...)]: one request on the network. *)
Definition client_search (c : tavily_client) (req : search_request) : M value :=
  fun w =>
    let call := mk_call (client_api_key c) req in
    (tavily_service (network w) call,
     mk_world (environ w) (network w ++ [call])).

(** ** search_web *)

Definition missing_key_message : string :=
  "TAVILY_API_KEY environment variable not set. " +:+
  "Get your API key from https://app.tavily.com/home".

Definition search_web (query : string) (max_results : Z)
    (include_answer include_raw_content : bool) (search_depth : string)
  : M value :=
  do! api_key := os_getenv "TAVILY_API_KEY" in
  if not_key api_key then
    raise (mk_exn ValueError missing_key_message)
  else
    try_except
      (do! tavily_client := lift (TavilyClient (key_text api_key)) in
       do! response :=
         client_search tavily_client
           (mk_request query max_results include_answer include_raw_content
              search_depth) in
       ret response)
      (fun e =>
         raise (mk_exn Exception ("Tavily API request failed: " +:+ exn_str e))).

(** The defaults of [search_web]'s keyword parameters. *)
Definition search_web_max_results : Z := 5.
Definition search_web_include_answer : bool := false.
Definition search_web_include_raw_content : bool := false.
Definition search_web_search_depth : string := "basic".

(** ** search_tool *)

Definition separator : string := nl +:+ nl +:+ "---" +:+ nl +:+ nl.

(** [search_web(query, max_results=max_results)] leaves the other three
    parameters at their defaults. *)
Definition search_tool (query : string) (max_results : Z) : M string :=
  try_except
    (do! search_results :=
       search_web query max_results search_web_include_answer
         search_web_include_raw_content search_web_search_depth in
     do! content_list := lift (format_search_results search_results) in
     let formatted_content := "Web Search Query: " +:+ query +:+ nl +:+ nl in
     let formatted_content :=
       formatted_content +:+ String.concat separator content_list in
     ret formatted_content)
    (fun e => ret ("Error performing web search: " +:+ exn_str e)).

(** The default of [search_tool]'s [max_results]. *)
Definition search_tool_max_results : Z := 3.

(** ** Task and SubagentTasks *)

Record Task := mk_Task { description : string; focus_area : string }.

Record SubagentTasks := mk_SubagentTasks { tasks : list Task }.

(** Construction of the two [BaseModel] classes from decoded JSON, as
    declared: both fields of [Task] are required and of type [str], [tasks]
    is required and a list of [Task].  The classes declare no validator and
    no constraint beyond the field types.  The text of a validation error
    is left to [validation_text]. *)
Variable validation_text : string -> value -> string.

Definition invalid {A} (model : string) (v : value) : outcome A :=
  Raise (mk_exn (OtherException "ValidationError") (validation_text model v)).

Definition Task_validate (v : value) : outcome Task :=
  match v with
  | VDict d =>
      match dict_get "description" d, dict_get "focus_area" d with
      | Some (VStr description), Some (VStr focus_area) =>
          Return (mk_Task description focus_area)
      | _, _ => invalid "Task" v
      end
  | _ => invalid "Task" v
  end.

Fixpoint Tasks_validate (items : list value) : outcome (list Task) :=
  match items with
  | [] => Return []
  | item :: rest =>
      let! task := Task_validate item in
      let! others := Tasks_validate rest in
      Return (task :: others)
  end.

Definition SubagentTasks_validate (v : value) : outcome SubagentTasks :=
  match v with
  | VDict d =>
      match dict_get "tasks" d with
      | Some (VList items) =>
          let! tasks := Tasks_validate items in
          Return (mk_SubagentTasks tasks)
      | _ => invalid "SubagentTasks" v
      end
  | _ => invalid "SubagentTasks" v
  end.

(** ** Coroutines and asyncio.gather *)

(** A coroutine as the event loop sees it: each time it is resumed it
    either runs to its next suspension point or finishes, by returning or
    by raising.  What it does in between is not part of this model. *)
Inductive coro (A : Type) :=
| Finished (r : outcome A)
| Suspended (k : coro A).
#[global] Arguments Finished {A} r.
#[global] Arguments Suspended {A} k.

(** The result the coroutine ends with, and the number of times it must be
    resumed to get there. *)
Fixpoint final {A} (c : coro A) : outcome A :=
  match c with
  | Finished r => r
  | Suspended k => final k
  end.

Fixpoint slices {A} (c : coro A) : nat :=
  match c with
  | Finished _ => 1
  | Suspended k => S (slices k)
  end.

(** A task of the event loop: still running, or done with a result. *)
Inductive slot (A : Type) :=
| Running (c : coro A)
| Resolved (a : A).
#[global] Arguments Running {A} c.
#[global] Arguments Resolved {A} a.

(** What can be observed of one call of [run_subagent]. *)
Inductive event :=
| Created (i : nat)
| Resumed (i : nat)
| Completed (i : nat)
| Failed (i : nat)
| Returned (n : nat).

(** What the awaiting caller sees: a result, or nothing yet. *)
Inductive awaited (A : Type) :=
| Done (r : outcome A)
| Blocked.
#[global] Arguments Done {A} r.
#[global] Arguments Blocked {A}.

(** The results of all tasks in the order of the tasks, once all are done. *)
Fixpoint collect {A} (slots : list (slot A)) : option (list A) :=
  match slots with
  | [] => Some []
  | Resolved a :: rest => cons a <$> collect rest
  | Running _ :: _ => None
  end.

(** The event loop while the caller awaits [gather].  [sched] lists the
    tasks in the order the loop resumes them; an entry that names no running
    task is passed over.  A task that returns is marked done, and when it
    was the last one the results are handed over in the order of the tasks;
    the first task that raises hands its exception to the caller at once. *)
Fixpoint gather_loop {A} (sched : list nat) (slots : list (slot A))
  : list event * awaited (list A) :=
  match sched with
  | [] => ([], Blocked)
  | i :: rest =>
      match slots !! i with
      | Some (Running (Suspended k)) =>
          let '(tr, r) := gather_loop rest (<[i := Running k]> slots) in
          (Resumed i :: tr, r)
      | Some (Running (Finished (Return a))) =>
          let slots' := <[i := Resolved a]> slots in
          match collect slots' with
          | Some results => ([Resumed i; Completed i], Done (Return results))
          | None =>
              let '(tr, r) := gather_loop rest slots' in
              (Resumed i :: Completed i :: tr, r)
          end
      | Some (Running (Finished (Raise e))) =>
          ([Resumed i; Failed i], Done (Raise e))
      | _ => gather_loop rest slots
      end
  end.

(** [await asyncio.gather] of the coroutines; without arguments the result
    is the empty list at once. *)
Definition gather {A} (sched : list nat) (coros : list (coro A))
  : list event * awaited (list A) :=
  match coros with
  | [] => ([], Done (Return []))
  | _ => gather_loop sched (Running <$> coros)
  end.

(** ** run_subagent *)

Record AgentRunResult := mk_result { output : string }.

(** [research_agent.run(prompt)] creates a coroutine.  The language model
    behind it is not part of the module: [research_agent_run n prompt] is
    the coroutine of the [n]-th run the process starts. *)
Variable research_agent_run : nat -> string -> coro AgentRunResult.

Definition research_prompt (task : Task) : string :=
  "Research Task: " +:+ description task +:+ nl +:+
  "Focus Area: " +:+ focus_area task.

(** The list comprehension: one coroutine per task, in the order of
    [tasks.tasks], all created before [gather] is called. *)
Definition subagent_coros (first_run : nat) (batch : list Task)
  : list (coro AgentRunResult) :=
  imap (fun i task => research_agent_run (first_run + i) (research_prompt task))
    batch.

(** The two [print] calls write to the console only and are left out. *)
Definition run_subagent (sched : list nat) (first_run : nat)
    (batch : SubagentTasks) : list event * awaited (list string) :=
  let coros := subagent_coros first_run (tasks batch) in
  let created := Created <$> seq 0 (length coros) in
  match gather sched coros with
  | (tr, Done (Return results)) =>
      let findings := output <$> results in
      (created ++ tr ++ [Returned (length findings)], Done (Return findings))
  | (tr, Done (Raise e)) => (created ++ tr, Done (Raise e))
  | (tr, Blocked) => (created ++ tr, Blocked)
  end.

(** ** The lead agent *)

(** The [instructions] of [lead_agent], as in the module. *)
Definition lead_agent_instruction : string :=
"You are a Research Lead Agent responsible for breaking down complex research queries and coordinating subagents to gather comprehensive information.

Your Role:
1. Analyze the user's research query
2. Break it down into 2-4 focused research tasks
3. Deploy subagents sequentially (not in parallel) to avoid rate limits
4. Synthesize findings into a comprehensive final report

Process:
1. First, understand the query scope and complexity
2. Create a simple research plan with 2-4 specific subtasks
3. Use the `run_subagent` tool to assign each subtask to a subagent
4. Wait for each subagent to complete before deploying the next one
5. Carefully examine findings to identify gaps, inconsistencies, or new angles
6. If needed, create additional research tasks to explore different perspectives or fill knowledge gaps
7. Continue iterating until you have sufficient comprehensive information
8. Review all findings and create a final synthesized report

Guidelines:
- Keep research tasks focused and specific
- Deploy subagents one at a time to manage rate limits
- Maximum of 2 follow-up research rounds after initial research to prevent loops
- Ensure each subtask contributes unique value to the overall research
- After each subagent completes, critically assess if the findings answer the research question
- Look for knowledge gaps, conflicting information, or unexplored angles
- Create follow-up tasks to address gaps or explore alternative perspectives
- Stop iterating when you have sufficient coverage OR reach the follow-up limit
- Create a comprehensive final report in structured markdown format
- IMPORTANT: Output ONLY markdown text, no other format or structure
- Follow this EXACT markdown structure:

  # [Clear title that reflects the research scope]

  ## Executive Summary

  [Write an executive summary that captures the essence of your findings - 2-3 sentences]

  ## [Section 1 Title - based on your research findings]

  [Detailed findings for this section]

  ## [Section 2 Title - based on your research findings]

  [Detailed findings for this section]

  ## [Additional sections as needed - typically 2-4 total sections]

  [Continue with logical sections based on your findings]

  ## Key Takeaways

  1. [First key takeaway that directly addresses the user's query]
  2. [Second key takeaway]
  3. [Third key takeaway]
  [Continue with 3-5 total takeaways]

- Do NOT include citations, references, or source lists
- Ensure high information density and be comprehensive yet concise
- Stream your response as you write - don't wait to format everything at once

Tools Available:
- run_subagent: Send specific research tasks to subagents
".

(** A reply of the language model behind [lead_agent] that carries at most
    one call: a call of its only tool, [run_subagent], with validated
    arguments, or the final text.  Replies in full, which can carry several
    calls, are [lead_reply] below. *)
Inductive model_reply :=
| CallTool (batch : SubagentTasks)
| FinalOutput (text : string).

(** The messages of a run, as the model is shown them. *)
Inductive message :=
| UserPrompt (text : string)
| ToolCall (batch : SubagentTasks)
| ToolReturn (findings : list string).

(** The language model is not part of the module: given the instructions
    and the messages so far it replies. *)
Variable lead_model : string -> list message -> model_reply.

(** How far [lead_agent_loop] gets, with the number of calls of
    [run_subagent] made: to the final text, to the exception a tool call
    raised, to a round that does not finish, or to the model asking for a
    round beyond those the schedules provide. *)
Inductive lead_result :=
| Reported (text : string) (rounds : nat)
| Aborted (e : py_exn) (rounds : nat)
| Stalled (rounds : nat)
| Unfinished (rounds : nat).

(** The steps of [lead_agent.run] round by round, for replies that carry
    one call: the model is asked; a tool call is carried out and its return
    value appended to the messages, and the model is asked again; an
    exception raised by the tool ends the run.  [scheds] gives the
    event-loop schedule of each round, and the steps are followed for as
    many rounds as it has schedules.  The limit the framework puts on the
    number of requests, and replies with several calls, are part of
    [lead_agent_run] below. *)
Fixpoint lead_agent_loop (scheds : list (list nat)) (messages : list message)
    (first_run rounds : nat) : lead_result :=
  match lead_model lead_agent_instruction messages with
  | FinalOutput text => Reported text rounds
  | CallTool batch =>
      match scheds with
      | [] => Unfinished rounds
      | sched :: rest =>
          match snd (run_subagent sched first_run batch) with
          | Done (Return findings) =>
              lead_agent_loop rest
                (messages ++ [ToolCall batch; ToolReturn findings])
                (first_run + length (tasks batch)) (S rounds)
          | Done (Raise e) => Aborted e (S rounds)
          | Blocked => Stalled (S rounds)
          end
      end
  end.

End Program.

(** ** The formatter against its description *)

(** The shape of a search result: a dictionary whose [answer], when there
    is one, is a string or null, and whose [results], when there are any,
    is a list of dictionaries whose [title], [url] and [content], when
    present, are strings.  Other keys are free. *)
Definition optional_string (k : string) (d : list (string * value)) : bool :=
  match dict_get k d with
  | None | Some (VStr _) => true
  | Some _ => false
  end.

Definition is_entry (v : value) : bool :=
  match v with
  | VDict d =>
      optional_string "title" d && optional_string "url" d
      && optional_string "content" d
  | _ => false
  end.

Definition is_SearchResult (v : value) : bool :=
  match v with
  | VDict d =>
      match dict_get "answer" d with
      | None | Some VNone | Some (VStr _) => true
      | Some _ => false
      end
      && match dict_get "results" d with
         | None => true
         | Some (VList entries) => forallb is_entry entries
         | Some _ => false
         end
  | _ => false
  end.

(** The text of a field that is present. *)
Definition field (k : string) (d : list (string * value)) : option string :=
  match dict_get k d with
  | Some (VStr s) => Some s
  | _ => None
  end.

(** The blocks as the formatter is described: the summary block when the
    answer is present and not empty, then one block per entry with content
    that is not empty, with placeholders for a missing title or url. *)
Definition described_summary (d : list (string * value)) : list string :=
  match field "answer" d with
  | Some answer =>
      if String.eqb answer "" then [] else ["AI Summary: " +:+ answer]
  | None => []
  end.

Definition described_source (entry : value) : list string :=
  match entry with
  | VDict d =>
      match field "content" d with
      | Some content =>
          if String.eqb content "" then []
          else ["Source: " +:+ default "Unknown Title" (field "title" d)
                +:+ " (" +:+ default "Unknown URL" (field "url" d) +:+ ")"
                +:+ nl +:+ "Content: " +:+ content]
      | None => []
      end
  | _ => []
  end.

Definition described_entries (d : list (string * value)) : list value :=
  match dict_get "results" d with
  | Some (VList entries) => entries
  | _ => []
  end.

Definition described_format (v : value) : list string :=
  match v with
  | VDict d =>
      described_summary d ++ flat_map described_source (described_entries d)
  | _ => []
  end.

(** A response as the service sends it, with keys the formatter does not
    read, an entry with empty content, one without title and url, and one
    without content. *)
Definition example_response : value :=
  VDict [("query", VStr "founder of openai");
         ("answer", VStr "Sam Altman and others");
         ("results", VList [
            VDict [("title", VStr "X"); ("url", VStr "http://x");
                   ("content", VStr "Sam Altman co-founded OpenAI");
                   ("score", VFloat 98 (-2)); ("raw_content", VNone)];
            VDict [("title", VStr "Y"); ("url", VStr "http://y");
                   ("content", VStr "")];
            VDict [("content", VStr "untitled")];
            VDict [("title", VStr "Z"); ("url", VStr "http://z")]]);
         ("response_time", VFloat 12 (-1))].

(** [os.environ[name] = text] between two calls. *)
Definition setenv (name text : string) (w : world) : world :=
  mk_world (<[name := text]> (environ w)) (network w).

(** Worlds, a client and services to run the search layer on. *)
Definition no_key_world : world := mk_world ∅ [].

Definition keyed_world : world :=
  mk_world {["TAVILY_API_KEY" := "tvly-demo"]} [].

Definition ready_client : string -> outcome unit := fun _ => Return ().

Definition unreachable_service : list net_call -> net_call -> outcome value :=
  fun _ _ =>
    Raise (mk_exn (OtherException "ConnectionError") "network is unreachable").

Definition stub_service : list net_call -> net_call -> outcome value :=
  fun _ _ => Return example_response.

Definition plain_repr : value -> string := fun _ => "".
Definition plain_fault_text : py_fault -> string := fun _ => "fault".

(** ** Schedules and coroutines *)

(** Whether a coroutine ends by returning, or by raising. *)
Definition succeeds {A} (c : coro A) : bool :=
  match final c with
  | Return _ => true
  | Raise _ => false
  end.

Definition fails {A} (c : coro A) : bool := negb (succeeds c).

(** How often the schedule names task [i]. *)
Definition turns (sched : list nat) (i : nat) : nat :=
  count_occ Nat.eq_dec sched i.

(** The schedule lets every coroutine run to its end: it names each task at
    least as often as the task has to be resumed.  Every order in which
    the tasks can complete is the order of some such schedule. *)
Definition covers {A} (sched : list nat) (coros : list (coro A)) : bool :=
  forallb (fun ic => slices ic.2 <=? turns sched ic.1)%nat
    (imap pair coros).

(** The same for the tasks of a loop under way. *)
Definition enough {A} (sched : list nat) (slots : list (slot A)) : Prop :=
  forall (j : nat) (c : coro A),
    slots !! j = Some (Running c) -> (slices c <= turns sched j)%nat.

(** The result a task ends with. *)
Definition slot_final {A} (s : slot A) : outcome A :=
  match s with
  | Running c => final c
  | Resolved a => Return a
  end.

(** An event of the loop about one of its [n] tasks. *)
Definition loop_event (n : nat) (ev : event) : Prop :=
  match ev with
  | Resumed j | Completed j | Failed j => (j < n)%nat
  | Created _ | Returned _ => False
  end.

(** ** Models of the lead agent *)

(** The number of rounds whose findings the model has been shown. *)
Fixpoint returns_shown (messages : list message) : nat :=
  match messages with
  | [] => 0
  | ToolReturn _ :: rest => S (returns_shown rest)
  | _ :: rest => returns_shown rest
  end.

(** A research agent that answers at once, one that suspends twice before
    answering, and one whose model fails. *)
Definition instant_agent : nat -> string -> coro AgentRunResult :=
  fun _ prompt => Finished (Return (mk_result ("Findings for: " +:+ prompt))).

Definition slow_agent : nat -> string -> coro AgentRunResult :=
  fun n prompt =>
    let answer := Finished (Return (mk_result ("Findings for: " +:+ prompt))) in
    match n with
    | 1%nat => answer
    | _ => Suspended (Suspended answer)
    end.

Definition flaky_agent : nat -> string -> coro AgentRunResult :=
  fun n prompt =>
    match n with
    | 1%nat =>
        Suspended (Finished (Raise (mk_exn (OtherException "ModelHTTPError")
                                      "status_code: 503")))
    | _ => Suspended (Suspended (Finished (Return (mk_result "other"))))
    end.

Definition example_batch : SubagentTasks :=
  mk_SubagentTasks [mk_Task "history of AISoC" "founding date";
                    mk_Task "people behind AISoC" "founder";
                    mk_Task "AISoC programmes" "curriculum"].

(** A lead model that finds gaps after every round. *)
Definition eager_model : string -> list message -> model_reply :=
  fun _ _ => CallTool example_batch.

(** ** The run of the lead agent *)

(** A reply of the lead model in full: its final text, or one or more
    calls of [run_subagent], with validated arguments, all of which are
    carried out before the model is asked again. *)
Inductive lead_reply :=
| Calls (batch : SubagentTasks) (more : list SubagentTasks)
| Answer (text : string).

(** [lead_agent.run] is called without [usage_limits], so the limit of the
    framework applies: 50 requests to the model in one run. *)
Definition request_limit : nat := 50.

(** How a run ends: with the final text, with the exception a call of
    [run_subagent] raised, with the framework's [UsageLimitExceeded] when
    the next request would exceed the limit, or not at all, waiting for
    a round that does not finish. *)
Inductive run_end :=
| Report (text : string)
| ToolError (e : py_exn)
| LimitReached
| Waiting.

(** A run in short: its end, the number of calls of [run_subagent]
    started and the number of requests made to the model. *)
Record run_summary := mk_summary {
  ending : run_end;
  rounds_run : nat;
  requests_made : nat
}.

(** The agent runs that the batches create. *)
Definition runs_created (batches : list SubagentTasks) : nat :=
  foldr (fun batch n => (length (tasks batch) + n)%nat) 0%nat batches.

Section LeadRun.

Variable research_agent_run : nat -> string -> coro AgentRunResult.

(** The lead model, and the event loop: the schedule under which it runs
    the coroutines of the round with a given number. *)
Variable lead : string -> list message -> lead_reply.
Variable event_loop : nat -> list (coro AgentRunResult) -> list nat.

(** The calls of one reply.  The framework starts them together; a call
    reads and writes nothing another call uses, and they are carried out
    here in the order of the reply, each a round of its own. *)
Fixpoint dispatch_calls (round first_run : nat) (batches : list SubagentTasks)
  : awaited (list (list string)) :=
  match batches with
  | [] => Done (Return [])
  | batch :: rest =>
      let sched :=
        event_loop round
          (subagent_coros research_agent_run first_run (tasks batch)) in
      match snd (run_subagent research_agent_run sched first_run batch) with
      | Done (Return findings) =>
          match dispatch_calls (S round)
                  (first_run + length (tasks batch)) rest with
          | Done (Return others) => Done (Return (findings :: others))
          | Done (Raise e) => Done (Raise e)
          | Blocked => Blocked
          end
      | Done (Raise e) => Done (Raise e)
      | Blocked => Blocked
      end
  end.

(** [lead_agent.run] from a state of the run on, with [budget] requests
    left before the limit.  Before each request the limit is checked; the
    model is asked; its calls are carried out and their return values
    appended to the messages, and the model is asked again; its final
    text ends the run, and so does an exception raised by a call.  The
    module itself counts no rounds and sets no limit of its own. *)
Fixpoint lead_agent_requests (budget : nat) (messages : list message)
    (first_run rounds requests : nat) : run_summary :=
  match budget with
  | O => mk_summary LimitReached rounds requests
  | S budget' =>
      match lead lead_agent_instruction messages with
      | Answer text => mk_summary (Report text) rounds (S requests)
      | Calls batch more =>
          let batches := batch :: more in
          let rounds' := (rounds + length batches)%nat in
          match dispatch_calls rounds first_run batches with
          | Done (Return returns) =>
              lead_agent_requests budget'
                (messages ++ (ToolCall <$> batches) ++ (ToolReturn <$> returns))
                (first_run + runs_created batches) rounds' (S requests)
          | Done (Raise e) => mk_summary (ToolError e) rounds' (S requests)
          | Blocked => mk_summary Waiting rounds' (S requests)
          end
      end
  end.

Definition lead_agent_run (query : string) : run_summary :=
  lead_agent_requests request_limit [UserPrompt query] 0 0 0.

(** An event loop that lets the coroutines of every round run to their
    end. *)
Definition fair : Prop :=
  forall round coros, covers (event_loop round coros) coros = true.

(** A lead model that keeps to the limit its instructions state, one
    initial round and at most two follow-up rounds: it never asks for calls
    that would make more than three in all. *)
Definition keeps_round_limit : Prop :=
  forall messages batch more,
    lead lead_agent_instruction messages = Calls batch more ->
    (returns_shown messages + S (length more) <= 3)%nat.

(** A lead model that never gives its final text. *)
Definition never_answers : Prop :=
  forall messages, exists batch more,
    lead lead_agent_instruction messages = Calls batch more.

End LeadRun.

(** An event loop that resumes the coroutines in turn, as often as the
    longest of them needs. *)
Definition most_slices {A} (coros : list (coro A)) : nat :=
  foldr (fun c m => Nat.max (slices c) m) 0%nat coros.

Definition round_robin (round : nat) (coros : list (coro AgentRunResult))
  : list nat :=
  concat (replicate (most_slices coros) (seq 0 (length coros))).

(** Lead models that reply in full: one that finds gaps after every round,
    one call a reply; one that finds gaps until it has been shown the
    findings of [n] rounds, whatever its instructions say; one that asks
    for two rounds in every reply until it has been shown the findings of
    three. *)
Definition gap_finder : string -> list message -> lead_reply :=
  fun _ _ => Calls example_batch [].

Definition persistent (n : nat) : string -> list message -> lead_reply :=
  fun _ messages =>
    if (n <=? returns_shown messages)%nat then Answer "# Report"
    else Calls example_batch [].

Definition pairwise : string -> list message -> lead_reply :=
  fun _ messages =>
    if (3 <=? returns_shown messages)%nat then Answer "# Report"
    else Calls example_batch [example_batch].

Definition main_query : string :=
  "When was the AISoC started and who is the founder?".

Definition plain_validation_text : string -> value -> string :=
  fun model _ => "validation error for " +:+ model.

(** ** Further shapes of input *)

(** A formatted block: it starts as a summary block or as a source block. *)
Definition is_block (b : string) : bool :=
  is_prefix "AI Summary: " b || is_prefix "Source: " b.

(** A value that is neither a dictionary, a list nor a string. *)
Definition scalar (v : value) : bool :=
  match v with
  | VNone | VBool _ | VInt _ | VFloat _ _ => true
  | VStr _ | VList _ | VDict _ => false
  end.

(** An [answer] that is absent, null or a string. *)
Definition optional_answer (d : list (string * value)) : bool :=
  match dict_get "answer" d with
  | None | Some VNone | Some (VStr _) => true
  | Some _ => false
  end.

(** Two entries with the same [content], [title] and [url], whatever else
    they hold. *)
Definition same_entry (entry entry' : value) : Prop :=
  match entry, entry' with
  | VDict d, VDict d' =>
      dict_get "content" d = dict_get "content" d'
      /\ dict_get "title" d = dict_get "title" d'
      /\ dict_get "url" d = dict_get "url" d'
  | _, _ => entry = entry'
  end.

(** The association list of a dictionary. *)
Definition fields (v : value) : list (string * value) :=
  match v with
  | VDict d => d
  | _ => []
  end.

(** The example response without the keys that are not read, and with
    others. *)
Definition example_response_bare : value :=
  VDict [("answer", VStr "Sam Altman and others");
         ("results", VList [
            VDict [("content", VStr "Sam Altman co-founded OpenAI");
                   ("url", VStr "http://x"); ("title", VStr "X")];
            VDict [("published", VStr "2015"); ("content", VStr "");
                   ("url", VStr "http://y"); ("title", VStr "Y")];
            VDict [("content", VStr "untitled"); ("score", VInt 1)];
            VDict [("url", VStr "http://z"); ("title", VStr "Z")]])].

(** A response whose second entry is null. *)
Definition broken_response : value :=
  VDict [("answer", VNone);
         ("results", VList [
            VDict [("title", VStr "X"); ("url", VStr "http://x");
                   ("content", VStr "Sam Altman co-founded OpenAI")];
            VNone;
            VDict [("content", VStr "untitled")]])].

(** A response whose [results] is a string. *)
Definition text_response : value :=
  VDict [("answer", VStr "Sam Altman and others");
         ("results", VStr "no results, no content")].

(** A client whose constructor rejects the key, a service that replies
    with null, one that replies with [broken_response], and one that is
    interrupted. *)
Definition rejecting_client : string -> outcome unit :=
  fun _ => Raise (mk_exn (OtherException "InvalidAPIKeyError") "bad key").

Definition null_service : list net_call -> net_call -> outcome value :=
  fun _ _ => Return VNone.

Definition broken_service : list net_call -> net_call -> outcome value :=
  fun _ _ => Return broken_response.

Definition interrupted_service : list net_call -> net_call -> outcome value :=
  fun _ _ => Raise (mk_exn (BaseExceptionOnly "KeyboardInterrupt") "").

(** The blocks of the example response, and the findings of the example
    batch when each agent answers with its prompt. *)
Definition example_blocks : list string :=
  ["AI Summary: Sam Altman and others";
   "Source: X (http://x)" +:+ nl +:+ "Content: Sam Altman co-founded OpenAI";
   "Source: Unknown Title (Unknown URL)" +:+ nl +:+ "Content: untitled"].

Definition example_findings : list string :=
  map (fun task => "Findings for: " +:+ research_prompt task)
    (tasks example_batch).

(** A string without a line break. *)
Fixpoint single_line (s : string) : bool :=
  match s with
  | EmptyString => true
  | String a s' => negb (Ascii.eqb a (ascii_of_nat 10)) && single_line s'
  end.

(** Two failing agents, the second failing sooner than the first. *)
Definition failing_agent : nat -> string -> coro AgentRunResult :=
  fun n prompt =>
    match n with
    | 0%nat =>
        Suspended (Suspended (Finished
          (Raise (mk_exn (OtherException "ModelHTTPError") "status_code: 503"))))
    | 1%nat =>
        Finished (Raise (mk_exn (OtherException "UsageLimitExceeded")
                           "request_limit"))
    | _ => Suspended (Finished (Return (mk_result ("Findings for: " +:+ prompt))))
    end.

(** A call that raises nothing but what [except Exception] catches. *)
Definition catchable {A} (x : outcome A) : Prop :=
  forall e, x = Raise e -> is_Exception e = true.

Create HintDb catchable.

(** * Properties *)

Lemma string_app_assoc (a b c : string) : (a +:+ b) +:+ c = a +:+ b +:+ c.
Proof.
  induction a as [|x a IH]; [reflexivity|].
  exact (f_equal (String x) IH).
Qed.

Section FormatterProofs.

Variable py_repr : value -> string.
Variable fault_text : py_fault -> string.

Lemma format_results_described (entries : list value) (acc : list string) :
  forallb is_entry entries = true ->
  format_results py_repr fault_text entries acc
  = Return (acc ++ flat_map described_source entries).
Proof.
  revert acc. induction entries as [|entry rest IH]; intros acc Hshape.
  - cbn. by rewrite app_nil_r.
  - cbn [forallb] in Hshape. apply andb_prop in Hshape as [Hentry Hrest].
    destruct entry as [ | | | | |  | d]; try discriminate Hentry.
    unfold is_entry, optional_string in Hentry.
    cbn [format_results has_truthy py_in py_getitem py_get obind flat_map
         described_source].
    unfold field.
    destruct (dict_get "content" d) as [[ | | | | content | | ]|] eqn:Hc;
      try (exfalso; by rewrite !andb_false_r in Hentry);
      cbn [bool_decide obind py_truthy].
    + rewrite bool_decide_true by eauto. cbn [obind py_truthy].
      destruct (String.eqb content "") eqn:Hempty; cbn [negb].
      * by rewrite IH.
      * destruct (dict_get "title" d) as [[ | | | | title | | ]|];
          try discriminate Hentry;
          destruct (dict_get "url" d) as [[ | | | | url | | ]|];
          try discriminate Hentry;
          cbn [obind py_str default]; rewrite IH by done;
          by rewrite <- app_assoc.
    + rewrite bool_decide_false by (intros [? ?]; discriminate).
      by rewrite IH.
Qed.

(** The second half of [format_search_results], from [content_list] on. *)
Lemma format_listed_described (d : list (string * value)) (acc : list string) :
  match dict_get "results" d with
  | None => true
  | Some (VList entries) => forallb is_entry entries
  | Some _ => false
  end = true ->
  (let! listed := py_in fault_text "results" (VDict d) in
   if listed then
     let! results := py_getitem fault_text (VDict d) "results" in
     let! items := py_iter fault_text results in
     format_results py_repr fault_text items acc
   else Return acc)
  = Return (acc ++ flat_map described_source (described_entries d)).
Proof.
  intros Hr. unfold described_entries. cbn [py_in py_getitem obind].
  destruct (dict_get "results" d) as [[ | | | | | entries | ]|];
    try discriminate Hr.
  - rewrite bool_decide_true by eauto. cbn [obind py_iter].
    by apply format_results_described.
  - rewrite bool_decide_false by (intros [? ?]; discriminate).
    cbn. by rewrite app_nil_r.
Qed.

End FormatterProofs.

(** C4.  On every search result of the described shape
    [format_search_results] returns, without raising, the summary block
    first exactly when the answer is present and not empty, then one
    [Source: title (url) / Content: content] block for each entry whose
    content is not empty, in the order of the entries, with
    [Unknown Title] and [Unknown URL] in place of a missing title or url,
    and nothing for an entry without content. *)
Theorem format_search_results_described
    (py_repr : value -> string) (fault_text : py_fault -> string)
    (search_results : value) :
  is_SearchResult search_results = true ->
  format_search_results py_repr fault_text search_results
  = Return (described_format search_results).
Proof.
  intros Hshape.
  destruct search_results as [ | | | | | | d]; try discriminate Hshape.
  unfold is_SearchResult in Hshape. apply andb_prop in Hshape as [Ha Hr].
  unfold format_search_results, described_format, described_summary, field.
  cbn [has_truthy py_in py_getitem obind].
  destruct (dict_get "answer" d) as [[ | | | | answer | | ]|] eqn:Hanswer;
    try discriminate Ha.
  - rewrite bool_decide_true by eauto. cbn [obind py_truthy].
    by apply (format_listed_described py_repr fault_text d []).
  - rewrite bool_decide_true by eauto. cbn [obind py_truthy].
    destruct (String.eqb answer ""); cbn [negb obind py_str app].
    + by apply (format_listed_described py_repr fault_text d []).
    + by apply (format_listed_described py_repr fault_text d
                  ["AI Summary: " +:+ answer]).
  - rewrite bool_decide_false by (intros [? ?]; discriminate). cbn [obind].
    by apply (format_listed_described py_repr fault_text d []).
Qed.

Lemma format_search_results_described_witness :
  is_SearchResult example_response = true /\
  format_search_results (fun _ => "") (fun _ => "") example_response
  = Return ["AI Summary: Sam Altman and others";
            "Source: X (http://x)" +:+ nl
              +:+ "Content: Sam Altman co-founded OpenAI";
            "Source: Unknown Title (Unknown URL)" +:+ nl
              +:+ "Content: untitled"].
Proof.
  split; [reflexivity|].
  apply (format_search_results_described (fun _ => "") (fun _ => "")
           example_response).
  reflexivity.
Defined.

(** ** search_web and search_tool *)

Section SearchProofs.

Variable py_repr : value -> string.
Variable fault_text : py_fault -> string.
Variable TavilyClient_init : string -> outcome unit.
Variable tavily_service : list net_call -> net_call -> outcome value.

Ltac run_search :=
  unfold search_tool, search_web, try_except, bind,
    os_getenv, raise, ret, lift, TavilyClient, client_search;
  cbn [environ network obind].

Lemma not_key_false (api_key : option string) (k : string) :
  api_key = Some k -> k <> "" -> not_key api_key = false.
Proof. intros -> Hk. cbn. by apply String.eqb_neq. Qed.

(** Without a usable key [search_web] raises its [ValueError] and leaves
    the world as it found it. *)
Lemma search_web_no_key query max_results include_answer include_raw_content
    search_depth (w : world) :
  not_key (environ w !! "TAVILY_API_KEY") = true ->
  search_web TavilyClient_init tavily_service query max_results
    include_answer include_raw_content search_depth w
  = (Raise (mk_exn ValueError missing_key_message), w).
Proof. intros Hkey. run_search. by rewrite Hkey. Qed.

(** With a key, what [search_web] does is what the client does, failures
    of class [Exception] being wrapped. *)
Lemma search_web_with_key query max_results include_answer include_raw_content
    search_depth (w : world) (k : string) :
  environ w !! "TAVILY_API_KEY" = Some k -> k <> "" ->
  TavilyClient_init k = Return () ->
  let call :=
    mk_call k (mk_request query max_results include_answer
                 include_raw_content search_depth) in
  let w' := mk_world (environ w) (network w ++ [call]) in
  search_web TavilyClient_init tavily_service query max_results
    include_answer include_raw_content search_depth w
  = match tavily_service (network w) call with
    | Return response => (Return response, w')
    | Raise e =>
        if is_Exception e
        then (Raise (mk_exn Exception
                       ("Tavily API request failed: " +:+ exn_str e)), w')
        else (Raise e, w')
    end.
Proof.
  intros Hkey Hk Hinit call w'. run_search.
  rewrite (not_key_false _ k Hkey Hk), Hkey. cbn [key_text].
  rewrite Hinit. cbn [obind client_api_key].
  fold call. by destruct (tavily_service (network w) call).
Qed.

(** A successful [search_web] sent exactly one request, under the key found
    in the environment. *)
Lemma search_web_returns query max_results include_answer include_raw_content
    search_depth (w w' : world) (response : value) :
  search_web TavilyClient_init tavily_service query max_results
    include_answer include_raw_content search_depth w
  = (Return response, w') ->
  w' = mk_world (environ w)
         (network w ++
          [mk_call (key_text (environ w !! "TAVILY_API_KEY"))
             (mk_request query max_results include_answer
                include_raw_content search_depth)]).
Proof.
  run_search. destruct (not_key _); [discriminate|].
  destruct (TavilyClient_init _) as [[]|e]; cbn [obind client_api_key].
  - destruct (tavily_service _ _) as [r|e]; [congruence|].
    destruct (is_Exception e); discriminate.
  - destruct (is_Exception e); discriminate.
Qed.

(** The formatter raises nothing but what [except Exception] catches. *)
Lemma catchable_Return {A} (a : A) : catchable (Return a).
Proof. intros e He. discriminate. Qed.

Lemma catchable_fault {A} (f : py_fault) : catchable (@fault fault_text A f).
Proof. intros e [= <-]. by destruct f. Qed.

Lemma catchable_obind {A B} (x : outcome A) (f : A -> outcome B) :
  catchable x -> (forall a, catchable (f a)) -> catchable (obind x f).
Proof.
  intros Hx Hf e. destruct x as [a|e']; cbn.
  - apply Hf.
  - intros [= <-]. by apply Hx.
Qed.

#[local] Hint Resolve catchable_Return catchable_fault : catchable.

Lemma catchable_py_in k v : catchable (py_in fault_text k v).
Proof. destruct v; cbn; auto with catchable. Qed.

Lemma catchable_py_getitem v k : catchable (py_getitem fault_text v k).
Proof.
  destruct v; cbn; auto with catchable.
  destruct (dict_get k d); auto with catchable.
Qed.

Lemma catchable_py_get v k dflt : catchable (py_get fault_text v k dflt).
Proof.
  destruct v; cbn; auto with catchable.
  destruct (dict_get k d); auto with catchable.
Qed.

Lemma catchable_py_iter v : catchable (py_iter fault_text v).
Proof. destruct v; cbn; auto with catchable. Qed.

#[local] Hint Resolve catchable_py_in catchable_py_getitem catchable_py_get
  catchable_py_iter : catchable.

Lemma catchable_has_truthy k v : catchable (has_truthy fault_text k v).
Proof.
  unfold has_truthy. apply catchable_obind; [auto with catchable|].
  intros []; [|auto with catchable].
  apply catchable_obind; auto with catchable.
Qed.

Lemma catchable_format_results entries acc :
  catchable (format_results py_repr fault_text entries acc).
Proof.
  revert acc. induction entries as [|entry rest IH]; intros acc;
    cbn [format_results]; [auto with catchable|].
  apply catchable_obind; [apply catchable_has_truthy|].
  intros []; [|apply IH].
  repeat (apply catchable_obind; [auto with catchable|]; intros ?).
  apply IH.
Qed.

Lemma catchable_format_search_results v :
  catchable (format_search_results py_repr fault_text v).
Proof.
  unfold format_search_results.
  apply catchable_obind; [apply catchable_has_truthy|]. intros summarised.
  apply catchable_obind.
  { destruct summarised; [|auto with catchable].
    apply catchable_obind; auto with catchable. }
  intros content_list.
  apply catchable_obind; [auto with catchable|].
  intros []; [|auto with catchable].
  repeat (apply catchable_obind; [auto with catchable|]; intros ?).
  apply catchable_format_results.
Qed.

(** C5.  When the environment holds no usable key at the time of the call,
    [search_web] raises its configuration error ([ValueError] with the
    fixed message) and the world is unchanged: no request was sent.  The
    key is looked up on every call: once the variable is set, the next call
    sends its request under the new key. *)
Theorem search_web_missing_credential query max_results include_answer
    include_raw_content search_depth (w : world) :
  not_key (environ w !! "TAVILY_API_KEY") = true ->
  search_web TavilyClient_init tavily_service query max_results
    include_answer include_raw_content search_depth w
  = (Raise (mk_exn ValueError missing_key_message), w)
  /\ forall k, k <> "" -> TavilyClient_init k = Return () ->
       snd (search_web TavilyClient_init tavily_service query max_results
              include_answer include_raw_content search_depth
              (setenv "TAVILY_API_KEY" k w))
       = mk_world (<["TAVILY_API_KEY" := k]> (environ w))
           (network w ++
            [mk_call k (mk_request query max_results include_answer
                          include_raw_content search_depth)]).
Proof.
  intros Hkey. split; [by apply search_web_no_key|].
  intros k Hk Hinit.
  rewrite (search_web_with_key _ _ _ _ _ (setenv "TAVILY_API_KEY" k w) k);
    [|unfold setenv; cbn [environ]; apply lookup_insert_eq|done|done].
  unfold setenv; cbn [environ network].
  destruct (tavily_service _ _) as [r|e]; [done|].
  by destruct (is_Exception e).
Qed.

(** C9.  When the key is present and the request to the service fails,
    with an exception of whatever class under [Exception], [search_web]
    raises an exception of the one class [Exception] whose message is
    [Tavily API request failed: ] followed by the text of the cause, and
    exactly one request has been sent: nothing is tried again. *)
Theorem search_web_provider_failure query max_results include_answer
    include_raw_content search_depth (w : world) (k : string) (e : py_exn) :
  environ w !! "TAVILY_API_KEY" = Some k -> k <> "" ->
  TavilyClient_init k = Return () ->
  tavily_service (network w)
    (mk_call k (mk_request query max_results include_answer
                  include_raw_content search_depth)) = Raise e ->
  is_Exception e = true ->
  search_web TavilyClient_init tavily_service query max_results
    include_answer include_raw_content search_depth w
  = (Raise (mk_exn Exception ("Tavily API request failed: " +:+ exn_str e)),
     mk_world (environ w)
       (network w ++
        [mk_call k (mk_request query max_results include_answer
                      include_raw_content search_depth)])).
Proof.
  intros Hkey Hk Hinit Hfail Hclass.
  rewrite (search_web_with_key _ _ _ _ _ w k Hkey Hk Hinit).
  cbv zeta. by rewrite Hfail, Hclass.
Qed.

(** C2.  Whatever the query, when the failure of the search layer, if
    there is one, is of a class under [Exception], [search_tool] returns a
    string and does not raise; when [search_web] raises, that string is
    [Error performing web search: ] followed by the text of the
    exception. *)
Theorem search_tool_never_raises query max_results (w : world) :
  catchable
    (fst (search_web TavilyClient_init tavily_service query max_results
            search_web_include_answer search_web_include_raw_content
            search_web_search_depth w)) ->
  (exists text,
     fst (search_tool py_repr fault_text TavilyClient_init tavily_service
            query max_results w) = Return text)
  /\ forall e,
       fst (search_web TavilyClient_init tavily_service query max_results
              search_web_include_answer search_web_include_raw_content
              search_web_search_depth w) = Raise e ->
       fst (search_tool py_repr fault_text TavilyClient_init tavily_service
              query max_results w)
       = Return ("Error performing web search: " +:+ exn_str e).
Proof.
  intros Hcatch. unfold search_tool, try_except, bind, lift, ret.
  destruct (search_web _ _ _ _ _ _ _ w) as [[response|e] w'] eqn:Hsearch;
    cbn [fst] in *.
  - split; [|discriminate].
    pose proof (catchable_format_search_results response) as Hformat.
    destruct (format_search_results _ _ response) as [blocks|e'];
      [by eexists|].
    rewrite (Hformat e' eq_refl). by eexists.
  - rewrite (Hcatch e eq_refl). split; [by eexists|].
    by intros ? [= <-].
Qed.

(** The two failures [search_web] produces itself, as [search_tool] reports
    them. *)
Lemma search_tool_without_key query max_results (w : world) :
  not_key (environ w !! "TAVILY_API_KEY") = true ->
  search_tool py_repr fault_text TavilyClient_init tavily_service
    query max_results w
  = (Return ("Error performing web search: " +:+ missing_key_message), w).
Proof.
  intros Hkey. unfold search_tool, try_except, bind, ret.
  by rewrite (search_web_no_key _ _ _ _ _ w Hkey).
Qed.

Lemma search_tool_provider_down query max_results (w : world) k e :
  environ w !! "TAVILY_API_KEY" = Some k -> k <> "" ->
  TavilyClient_init k = Return () ->
  tavily_service (network w)
    (mk_call k (mk_request query max_results false false "basic")) = Raise e ->
  is_Exception e = true ->
  fst (search_tool py_repr fault_text TavilyClient_init tavily_service
         query max_results w)
  = Return ("Error performing web search: " +:+
            "Tavily API request failed: " +:+ exn_str e).
Proof.
  intros Hkey Hk Hinit Hfail Hclass. unfold search_tool, try_except, bind, ret.
  rewrite (search_web_with_key _ _ _ _ _ w k Hkey Hk Hinit). cbv zeta.
  change search_web_include_answer with false.
  change search_web_include_raw_content with false.
  change search_web_search_depth with "basic".
  by rewrite Hfail, Hclass.
Qed.

(** C10.  When [search_web], called with the query and [max_results] and
    with [include_answer] false, [include_raw_content] false and
    [search_depth] basic, returns a response and the formatter returns its
    blocks, [search_tool] returns the header line with the query, an empty
    line, and the blocks joined by the separator; the one request on the
    network carries those parameters. *)
Theorem search_tool_success query max_results (w w' : world)
    (response : value) (blocks : list string) :
  search_web TavilyClient_init tavily_service query max_results
    false false "basic" w = (Return response, w') ->
  format_search_results py_repr fault_text response = Return blocks ->
  search_tool py_repr fault_text TavilyClient_init tavily_service
    query max_results w
  = (Return ("Web Search Query: " +:+ query +:+ nl +:+ nl +:+
             String.concat (nl +:+ nl +:+ "---" +:+ nl +:+ nl) blocks), w')
  /\ network w'
     = network w ++
       [mk_call (key_text (environ w !! "TAVILY_API_KEY"))
          (mk_request query max_results false false "basic")].
Proof.
  intros Hsearch Hformat. split.
  - unfold search_tool, try_except, bind, lift, ret.
    change search_web_include_answer with false.
    change search_web_include_raw_content with false.
    change search_web_search_depth with "basic".
    rewrite Hsearch, Hformat. unfold separator.
    by rewrite !string_app_assoc.
  - by rewrite (search_web_returns _ _ _ _ _ _ _ _ Hsearch).
Qed.

End SearchProofs.

Lemma search_web_missing_credential_witness :
  not_key (environ no_key_world !! "TAVILY_API_KEY") = true /\
  search_web ready_client unreachable_service "founder of openai" 3
    false false "basic" no_key_world
  = (Raise (mk_exn ValueError missing_key_message), no_key_world).
Proof.
  split; [reflexivity|].
  apply (search_web_missing_credential ready_client unreachable_service
           "founder of openai" 3 false false "basic" no_key_world).
  reflexivity.
Defined.

Lemma search_web_provider_failure_witness :
  search_web ready_client unreachable_service "founder of openai" 3
    false false "basic" keyed_world
  = (Raise (mk_exn Exception
              "Tavily API request failed: network is unreachable"),
     mk_world (environ keyed_world)
       [mk_call "tvly-demo"
          (mk_request "founder of openai" 3 false false "basic")]).
Proof.
  apply (search_web_provider_failure ready_client unreachable_service
           "founder of openai" 3 false false "basic" keyed_world "tvly-demo"
           (mk_exn (OtherException "ConnectionError")
              "network is unreachable")).
  - reflexivity.
  - discriminate.
  - reflexivity.
  - reflexivity.
  - reflexivity.
Defined.

Lemma search_tool_never_raises_witness :
  fst (search_tool plain_repr plain_fault_text ready_client
         unreachable_service "founder of openai" 3 keyed_world)
  = Return ("Error performing web search: "
            +:+ "Tavily API request failed: network is unreachable").
Proof.
  refine (proj2 (search_tool_never_raises plain_repr plain_fault_text
                   ready_client unreachable_service "founder of openai" 3
                   keyed_world _)
            (mk_exn Exception
               "Tavily API request failed: network is unreachable") _).
  - intros e He. vm_compute in He. injection He as <-. reflexivity.
  - reflexivity.
Defined.

Lemma search_tool_success_witness :
  search_tool plain_repr plain_fault_text ready_client stub_service
    "founder of openai" 3 keyed_world
  = (Return ("Web Search Query: founder of openai" +:+ nl +:+ nl +:+
             "AI Summary: Sam Altman and others"
             +:+ nl +:+ nl +:+ "---" +:+ nl +:+ nl +:+
             "Source: X (http://x)" +:+ nl
             +:+ "Content: Sam Altman co-founded OpenAI"
             +:+ nl +:+ nl +:+ "---" +:+ nl +:+ nl +:+
             "Source: Unknown Title (Unknown URL)" +:+ nl
             +:+ "Content: untitled"),
     mk_world (environ keyed_world)
       [mk_call "tvly-demo"
          (mk_request "founder of openai" 3 false false "basic")]).
Proof.
  apply (search_tool_success plain_repr plain_fault_text ready_client
           stub_service "founder of openai" 3 keyed_world
           (mk_world (environ keyed_world)
              [mk_call "tvly-demo"
                 (mk_request "founder of openai" 3 false false "basic")])
           example_response
           ["AI Summary: Sam Altman and others";
            "Source: X (http://x)" +:+ nl
              +:+ "Content: Sam Altman co-founded OpenAI";
            "Source: Unknown Title (Unknown URL)" +:+ nl
              +:+ "Content: untitled"]).
  - reflexivity.
  - reflexivity.
Defined.

(** ** The event loop *)

Section GatherProofs.

Context {A : Type}.
Implicit Types (slots : list (slot A)) (sched : list nat) (tr : list event).

Lemma collect_Some slots (results : list A) :
  collect slots = Some results <-> slots = Resolved <$> results.
Proof.
  revert results. induction slots as [|[c|a] slots IH]; intros results; cbn.
  - split; [intros [= <-]; done|]. by destruct results.
  - split; [done|]. by destruct results.
  - destruct (collect slots) as [rs|] eqn:Hc; cbn.
    + split.
      * intros [= <-]. cbn. f_equal. by apply IH.
      * destruct results as [|r results]; [done|]. intros [= -> Hs].
        apply IH in Hs. by injection Hs as ->.
    + split; [done|]. destruct results as [|r results]; [done|].
      intros [= -> Hs]. by apply IH in Hs.
Qed.

Lemma collect_None slots :
  collect slots = None <->
  exists (j : nat) (c : coro A), slots !! j = Some (Running c).
Proof.
  induction slots as [|[c|a] slots IH]; cbn.
  - split; [done|]. by intros (j & c & ?).
  - split; [|done]. intros _. by exists 0%nat, c.
  - destruct (collect slots) as [rs|]; cbn.
    + split; [done|]. intros ([|j] & c & Hj); [done|].
      cbn in Hj. destruct IH as [_ IH]. discriminate IH. eauto.
    + split; [|done]. intros _.
      destruct IH as [IH _]. destruct (IH eq_refl) as (j & c & Hj).
      by exists (S j), c.
Qed.

Lemma finals_insert slots (i : nat) (s s' : slot A) :
  slots !! i = Some s -> slot_final s' = slot_final s ->
  slot_final <$> <[i := s']> slots = slot_final <$> slots.
Proof.
  intros Hi Hs. rewrite list_fmap_insert, Hs.
  apply list_insert_id. by rewrite list_lookup_fmap, Hi.
Qed.

(** When the loop hands over results, they are the results the tasks end
    with, task by task. *)
Lemma gather_loop_gathered sched slots tr (results : list A) :
  gather_loop sched slots = (tr, Done (Return results)) ->
  slot_final <$> slots = Return <$> results.
Proof.
  revert slots tr. induction sched as [|i sched IH]; intros slots tr;
    cbn [gather_loop]; [done|].
  destruct (slots !! i) as [[[[a|e]|k]|a]|] eqn:Hi.
  - destruct (collect _) as [rs|] eqn:Hc.
    + intros [= <- <-]. apply collect_Some in Hc.
      rewrite <- (finals_insert slots i (Running (Finished (Return a)))
                    (Resolved a)) by done.
      rewrite Hc, <- list_fmap_compose. done.
    + destruct (gather_loop sched _) as [tr' r] eqn:Hloop.
      intros [= <- ->]. apply IH in Hloop.
      by rewrite <- Hloop, (finals_insert slots i
                             (Running (Finished (Return a)))).
  - done.
  - destruct (gather_loop sched _) as [tr' r] eqn:Hloop.
    intros [= <- ->]. apply IH in Hloop.
    by rewrite <- Hloop, (finals_insert slots i (Running (Suspended k))).
  - apply IH.
  - apply IH.
Qed.

Lemma slices_pos (c : coro A) : (1 <= slices c)%nat.
Proof. destruct c; cbn; lia. Qed.

Lemma turns_cons_eq sched (i : nat) : turns (i :: sched) i = S (turns sched i).
Proof. unfold turns. by rewrite count_occ_cons_eq. Qed.

Lemma turns_cons_ne sched (i j : nat) :
  i <> j -> turns (i :: sched) j = turns sched j.
Proof. intros Hne. unfold turns. by rewrite count_occ_cons_neq. Qed.

Lemma enough_nil slots : enough [] slots -> collect slots = None -> False.
Proof.
  intros Hen (j & c & Hj)%collect_None.
  specialize (Hen j c Hj). pose proof (slices_pos c). cbn in Hen. lia.
Qed.

Lemma enough_skip sched slots (i : nat) :
  enough (i :: sched) slots ->
  (forall c, slots !! i <> Some (Running c)) ->
  enough sched slots.
Proof.
  intros Hen Hi j c Hj. specialize (Hen j c Hj).
  rewrite turns_cons_ne in Hen; [done|]. intros ->. by eapply Hi.
Qed.

Lemma enough_resume sched slots (i : nat) (k : coro A) :
  enough (i :: sched) slots ->
  slots !! i = Some (Running (Suspended k)) ->
  enough sched (<[i := Running k]> slots).
Proof.
  intros Hen Hi j c Hj. destruct (decide (i = j)) as [<-|Hne].
  - rewrite list_lookup_insert_eq in Hj by (by eapply lookup_lt_Some).
    injection Hj as <-. specialize (Hen i _ Hi).
    rewrite turns_cons_eq in Hen. cbn in Hen. lia.
  - rewrite list_lookup_insert_ne in Hj by done.
    specialize (Hen j c Hj). by rewrite turns_cons_ne in Hen.
Qed.

Lemma enough_resolve sched slots (i : nat) (c : coro A) (a : A) :
  enough (i :: sched) slots ->
  slots !! i = Some (Running c) ->
  enough sched (<[i := Resolved a]> slots).
Proof.
  intros Hen Hi j c' Hj. destruct (decide (i = j)) as [<-|Hne].
  - rewrite list_lookup_insert_eq in Hj by (by eapply lookup_lt_Some). done.
  - rewrite list_lookup_insert_ne in Hj by done.
    specialize (Hen j c' Hj). by rewrite turns_cons_ne in Hen.
Qed.

(** When every task ends by returning and the schedule is long enough, the
    loop hands over results. *)
Lemma gather_loop_returns sched slots :
  (forall (j : nat) (s : slot A),
     slots !! j = Some s -> exists a, slot_final s = Return a) ->
  enough sched slots -> collect slots = None ->
  exists tr (results : list A),
    gather_loop sched slots = (tr, Done (Return results)).
Proof.
  revert slots. induction sched as [|i sched IH]; intros slots Hok Hen Hrun.
  { destruct (enough_nil slots Hen Hrun). }
  cbn [gather_loop].
  destruct (slots !! i) as [[[[a|e]|k]|a]|] eqn:Hi.
  - destruct (collect (<[i := Resolved a]> slots)) as [rs|] eqn:Hc;
      [by eauto|].
    assert (forall (j : nat) (s : slot A),
              <[i := Resolved a]> slots !! j = Some s ->
              exists a', slot_final s = Return a') as Hok'.
    { intros j s Hj. destruct (decide (i = j)) as [<-|Hne].
      - rewrite list_lookup_insert_eq in Hj by (by eapply lookup_lt_Some).
        injection Hj as <-. by eauto.
      - rewrite list_lookup_insert_ne in Hj by done. by eapply Hok. }
    destruct (IH _ Hok' (enough_resolve _ _ _ _ a Hen Hi) Hc)
      as (tr & results & ->).
    by eauto.
  - destruct (Hok i _ Hi) as [a Ha]. discriminate Ha.
  - assert (collect (<[i := Running k]> slots) = None) as Hrun'.
    { apply collect_None. exists i, k.
      apply list_lookup_insert_eq. by eapply lookup_lt_Some. }
    assert (forall (j : nat) (s : slot A),
              <[i := Running k]> slots !! j = Some s ->
              exists a', slot_final s = Return a') as Hok'.
    { intros j s Hj. destruct (decide (i = j)) as [<-|Hne].
      - rewrite list_lookup_insert_eq in Hj by (by eapply lookup_lt_Some).
        injection Hj as <-. by apply (Hok i _ Hi).
      - rewrite list_lookup_insert_ne in Hj by done. by eapply Hok. }
    destruct (IH _ Hok' (enough_resume _ _ _ _ Hen Hi) Hrun')
      as (tr & results & ->).
    by eauto.
  - apply IH; [done| |done]. eapply enough_skip; [done|]. congruence.
  - apply IH; [done| |done]. eapply enough_skip; [done|]. congruence.
Qed.

(** When some task ends by raising and the schedule is long enough, the
    loop hands the caller the exception of a task that raised. *)
Lemma gather_loop_raises sched slots :
  (exists (j : nat) (c : coro A) e,
     slots !! j = Some (Running c) /\ final c = Raise e) ->
  enough sched slots ->
  exists tr e,
    gather_loop sched slots = (tr, Done (Raise e))
    /\ exists (j : nat) (c : coro A),
         slots !! j = Some (Running c) /\ final c = Raise e.
Proof.
  revert slots. induction sched as [|i sched IH];
    intros slots (j & c & e & Hj & Hc) Hen.
  { destruct (enough_nil slots Hen). apply collect_None. eauto. }
  cbn [gather_loop].
  destruct (slots !! i) as [[[[a|e']|k]|a]|] eqn:Hi.
  - assert (i <> j) as Hne by (intros ->; rewrite Hi in Hj; by simplify_eq).
    assert (<[i := Resolved a]> slots !! j = Some (Running c)) as Hj'
      by (by rewrite list_lookup_insert_ne).
    destruct (collect (<[i := Resolved a]> slots)) as [rs|] eqn:Hcol.
    { assert (collect (<[i := Resolved a]> slots) = None) as HN
        by (apply collect_None; eauto).
      congruence. }
    destruct (IH (<[i := Resolved a]> slots)
                (ex_intro _ j (ex_intro _ c (ex_intro _ e (conj Hj' Hc))))
                (enough_resolve _ _ _ _ a Hen Hi))
      as (tr & e1 & -> & j1 & c1 & Hj1 & Hc1).
    eexists _, e1. split; [done|]. exists j1, c1. split; [|done].
    destruct (decide (i = j1)) as [<-|Hne1].
    + rewrite list_lookup_insert_eq in Hj1 by (by eapply lookup_lt_Some).
      done.
    + by rewrite list_lookup_insert_ne in Hj1.
  - eexists _, e'. split; [done|]. by exists i, (Finished (Raise e')).
  - assert (exists (j : nat) (c : coro A) e,
              <[i := Running k]> slots !! j = Some (Running c)
              /\ final c = Raise e) as Hfail.
    { destruct (decide (i = j)) as [<-|Hne].
      - exists i, k, e. split.
        + apply list_lookup_insert_eq. by eapply lookup_lt_Some.
        + rewrite Hi in Hj. by simplify_eq.
      - exists j, c, e. by rewrite list_lookup_insert_ne. }
    destruct (IH _ Hfail (enough_resume _ _ _ _ Hen Hi))
      as (tr & e1 & -> & j1 & c1 & Hj1 & Hc1).
    eexists _, e1. split; [done|].
    destruct (decide (i = j1)) as [<-|Hne1].
    + rewrite list_lookup_insert_eq in Hj1 by (by eapply lookup_lt_Some).
      injection Hj1 as <-. by exists i, (Suspended k).
    + exists j1, c1. by rewrite list_lookup_insert_ne in Hj1.
  - apply IH; [by eauto 6|]. eapply enough_skip; [done|]. congruence.
  - apply IH; [by eauto 6|]. eapply enough_skip; [done|]. congruence.
Qed.

(** The loop records nothing but resumptions, completions and failures of
    its own tasks. *)
Lemma gather_loop_events sched slots tr (r : awaited (list A)) :
  gather_loop sched slots = (tr, r) -> Forall (loop_event (length slots)) tr.
Proof.
  revert slots tr. induction sched as [|i sched IH]; intros slots tr;
    cbn [gather_loop].
  { intros [= <- <-]. constructor. }
  destruct (slots !! i) as [[[[a|e]|k]|a]|] eqn:Hi;
    try (pose proof (lookup_lt_Some _ _ _ Hi) as Hlt).
  - destruct (collect (<[i := Resolved a]> slots)) as [rs|].
    + intros [= <- <-]. by repeat constructor.
    + destruct (gather_loop sched _) as [tr' r'] eqn:Hloop.
      intros [= <- <-]. apply IH in Hloop. rewrite length_insert in Hloop.
      by repeat constructor.
  - intros [= <- <-]. by repeat constructor.
  - destruct (gather_loop sched _) as [tr' r'] eqn:Hloop.
    intros [= <- <-]. apply IH in Hloop. rewrite length_insert in Hloop.
    by constructor.
  - apply IH.
  - apply IH.
Qed.

(** When the loop hands over results, every task that was running has
    been recorded as completed. *)
Lemma gather_loop_completed sched slots tr (results : list A) :
  gather_loop sched slots = (tr, Done (Return results)) ->
  forall (j : nat) (c : coro A),
    slots !! j = Some (Running c) -> Completed j ∈ tr.
Proof.
  revert slots tr. induction sched as [|i sched IH]; intros slots tr;
    cbn [gather_loop]; [done|].
  destruct (slots !! i) as [[[[a|e]|k]|a]|] eqn:Hi.
  - destruct (collect (<[i := Resolved a]> slots)) as [rs|] eqn:Hc.
    + intros [= <- <-] j c Hj. destruct (decide (i = j)) as [<-|Hne].
      * set_solver.
      * assert (collect (<[i := Resolved a]> slots) = None) as HN.
        { apply collect_None. exists j, c.
          by rewrite list_lookup_insert_ne. }
        congruence.
    + destruct (gather_loop sched _) as [tr' r'] eqn:Hloop.
      intros [= <- ->] j c Hj. destruct (decide (i = j)) as [<-|Hne].
      * set_solver.
      * do 2 apply list_elem_of_further. eapply (IH _ _ Hloop j c).
        by rewrite list_lookup_insert_ne.
  - done.
  - destruct (gather_loop sched _) as [tr' r'] eqn:Hloop.
    intros [= <- ->] j c Hj. apply list_elem_of_further.
    destruct (decide (i = j)) as [<-|Hne].
    + eapply (IH _ _ Hloop i k). apply list_lookup_insert_eq.
      by eapply lookup_lt_Some.
    + eapply (IH _ _ Hloop j c). by rewrite list_lookup_insert_ne.
  - apply IH.
  - apply IH.
Qed.

Lemma covers_enough sched (coros : list (coro A)) :
  covers sched coros = true -> enough sched (Running <$> coros).
Proof.
  unfold covers. rewrite forallb_forall. intros Hall j c Hj.
  rewrite list_lookup_fmap in Hj.
  destruct (coros !! j) as [c'|] eqn:Hc; [|done]. injection Hj as ->.
  specialize (Hall (j, c)). cbn in Hall. apply Nat.leb_le, Hall.
  apply list_elem_of_In, elem_of_lookup_imap. by exists j, c.
Qed.

Lemma collect_running (coros : list (coro A)) :
  coros <> [] -> collect (Running <$> coros) = None.
Proof. by destruct coros. Qed.

Lemma gather_nonempty sched (coros : list (coro A)) :
  coros <> [] -> gather sched coros = gather_loop sched (Running <$> coros).
Proof. by destruct coros. Qed.

Lemma gather_gathered sched (coros : list (coro A)) tr (results : list A) :
  gather sched coros = (tr, Done (Return results)) ->
  final <$> coros = Return <$> results.
Proof.
  unfold gather. destruct coros as [|c coros]; [by intros [= <- <-]|].
  intros Hloop%gather_loop_gathered.
  by rewrite <- list_fmap_compose in Hloop.
Qed.

(** [gather] on coroutines that all return, under a schedule that lets
    them: the results, in the order of the coroutines. *)
Lemma gather_returns sched (coros : list (coro A)) :
  forallb succeeds coros = true -> covers sched coros = true ->
  exists tr (results : list A),
    gather sched coros = (tr, Done (Return results))
    /\ final <$> coros = Return <$> results.
Proof.
  intros Hok Hcov.
  assert (exists tr (results : list A),
            gather sched coros = (tr, Done (Return results)))
    as (tr & results & Hg).
  { destruct coros as [|c rest]; [by eexists _, _|].
    rewrite gather_nonempty by done. apply gather_loop_returns.
    - intros j s Hj. rewrite list_lookup_fmap in Hj.
      destruct ((c :: rest) !! j) as [c'|] eqn:Hc; [|done].
      injection Hj as <-.
      rewrite forallb_forall in Hok. specialize (Hok c').
      unfold succeeds in Hok. cbn. destruct (final c') as [a|e]; [by eauto|].
      discriminate Hok. apply list_elem_of_In. by eapply list_elem_of_lookup_2.
    - by apply covers_enough.
    - by apply collect_running. }
  exists tr, results. split; [done|]. by eapply gather_gathered.
Qed.

(** [gather] when some coroutine raises: no results, and under a schedule
    that lets the coroutines run, the exception of one that raised. *)
Lemma gather_never_returns sched (coros : list (coro A)) tr results :
  existsb fails coros = true ->
  gather sched coros <> (tr, Done (Return results)).
Proof.
  intros Hfail Hg%gather_gathered.
  apply existsb_exists in Hfail as (c & Hin & Hc).
  apply list_elem_of_In, list_elem_of_lookup in Hin as [j Hj].
  apply (f_equal (fun l => l !! j)) in Hg.
  rewrite !list_lookup_fmap, Hj in Hg. cbn in Hg.
  unfold fails, succeeds in Hc.
  destruct (results !! j); destruct (final c); by simplify_eq.
Qed.

Lemma gather_raises sched (coros : list (coro A)) :
  existsb fails coros = true -> covers sched coros = true ->
  exists tr e,
    gather sched coros = (tr, Done (Raise e))
    /\ exists (j : nat) (c : coro A), coros !! j = Some c /\ final c = Raise e.
Proof.
  intros Hfail Hcov.
  apply existsb_exists in Hfail as (c & Hin & Hc).
  apply list_elem_of_In, list_elem_of_lookup in Hin as [j Hj].
  unfold fails, succeeds in Hc. destruct (final c) as [a|e] eqn:Hfin; [done|].
  assert (coros <> []) as Hne by (by destruct coros).
  rewrite gather_nonempty by done.
  assert (exists (j : nat) (c : coro A) e,
            (Running <$> coros) !! j = Some (Running c)
            /\ final c = Raise e) as Hraise.
  { exists j, c, e. by rewrite list_lookup_fmap, Hj. }
  destruct (gather_loop_raises sched (Running <$> coros) Hraise
              (covers_enough _ _ Hcov))
    as (tr & e1 & Hloop & j1 & c1 & Hj1 & Hc1).
  exists tr, e1. split; [done|]. exists j1, c1. split; [|done].
  rewrite list_lookup_fmap in Hj1.
  destruct (coros !! j1); cbn in Hj1; by simplify_eq.
Qed.

Lemma gather_events sched (coros : list (coro A)) tr r :
  gather sched coros = (tr, r) -> Forall (loop_event (length coros)) tr.
Proof.
  destruct coros as [|c rest]; [intros [= <- <-]; constructor|].
  rewrite gather_nonempty by done. intros Hloop%gather_loop_events.
  by rewrite length_fmap in Hloop.
Qed.

Lemma gather_completed sched (coros : list (coro A)) tr results :
  gather sched coros = (tr, Done (Return results)) ->
  forall i, (i < length coros)%nat -> Completed i ∈ tr.
Proof.
  destruct coros as [|c rest]; [cbn; lia|].
  rewrite gather_nonempty by done. intros Hloop i Hi.
  destruct (lookup_lt_is_Some_2 (c :: rest) i Hi) as [c' Hc].
  eapply (gather_loop_completed _ _ _ _ Hloop i c').
  by rewrite list_lookup_fmap, Hc.
Qed.

End GatherProofs.

(** ** run_subagent and the lead agent *)

Section DispatchProofs.

Variable research_agent_run : nat -> string -> coro AgentRunResult.

Lemma subagent_coros_length first_run (batch : list Task) :
  length (subagent_coros research_agent_run first_run batch) = length batch.
Proof. apply length_imap. Qed.

Lemma subagent_coros_lookup first_run (batch : list Task) (i : nat) task :
  batch !! i = Some task ->
  subagent_coros research_agent_run first_run batch !! i
  = Some (research_agent_run (first_run + i) (research_prompt task)).
Proof.
  intros Hi. unfold subagent_coros. by rewrite list_lookup_imap, Hi.
Qed.

(** C1.  For a batch of N tasks whose research agents all return, and for
    every schedule that lets them run, hence whatever the order in which
    they complete, [run_subagent] returns exactly N findings, and the
    finding at position i is the output of the agent run created for the
    task at position i. *)
Theorem run_subagent_positional sched first_run (batch : SubagentTasks) :
  forallb succeeds
    (subagent_coros research_agent_run first_run (tasks batch)) = true ->
  covers sched
    (subagent_coros research_agent_run first_run (tasks batch)) = true ->
  exists findings : list string,
    snd (run_subagent research_agent_run sched first_run batch)
    = Done (Return findings)
    /\ length findings = length (tasks batch)
    /\ forall (i : nat) task, tasks batch !! i = Some task ->
         exists r,
           final (research_agent_run (first_run + i) (research_prompt task))
           = Return r
           /\ findings !! i = Some (output r).
Proof.
  intros Hok Hcov.
  destruct (gather_returns sched _ Hok Hcov) as (tr & results & Hg & Hfin).
  unfold run_subagent. rewrite Hg. cbn [snd].
  exists (output <$> results). split; [done|].
  assert (length results = length (tasks batch)) as Hlen.
  { apply (f_equal length) in Hfin.
    by rewrite !length_fmap, subagent_coros_length in Hfin. }
  split; [by rewrite length_fmap|].
  intros i task Hi.
  apply (f_equal (fun l => l !! i)) in Hfin.
  rewrite !list_lookup_fmap, (subagent_coros_lookup _ _ _ _ Hi) in Hfin.
  destruct (results !! i) as [r|] eqn:Hr; [|done].
  exists r. split; [by injection Hfin|].
  by rewrite list_lookup_fmap, Hr.
Qed.

(** The trace of a call: the creations, the events of the loop, and the
    return when there is one. *)
Lemma run_subagent_trace sched first_run (batch : SubagentTasks) :
  exists tr tail,
    fst (run_subagent research_agent_run sched first_run batch)
    = (Created <$> seq 0 (length (tasks batch))) ++ tr ++ tail
    /\ Forall (loop_event (length (tasks batch))) tr
    /\ match snd (run_subagent research_agent_run sched first_run batch) with
       | Done (Return findings) =>
           tail = [Returned (length (tasks batch))]
           /\ forall i, (i < length (tasks batch))%nat -> Completed i ∈ tr
       | _ => tail = []
       end.
Proof.
  unfold run_subagent. rewrite subagent_coros_length.
  destruct (gather sched _) as [tr r] eqn:Hg.
  pose proof (gather_events _ _ _ _ Hg) as Hev.
  rewrite subagent_coros_length in Hev.
  destruct r as [[results|e]|]; cbn [fst snd].
  - exists tr, [Returned (length (tasks batch))]. split.
    + pose proof (gather_gathered _ _ _ _ Hg) as Hfin.
      apply (f_equal length) in Hfin.
      rewrite !length_fmap, subagent_coros_length in Hfin.
      by rewrite length_fmap, Hfin.
    + split; [done|]. split; [done|]. intros i Hi.
      eapply gather_completed; [done|]. by rewrite subagent_coros_length.
  - exists tr, []. by rewrite app_nil_r.
  - exists tr, []. by rewrite app_nil_r.
Qed.


Variable lead_model : string -> list message -> model_reply.

(** C6.  When one of the agent runs of a round ends by raising,
    [run_subagent] returns no findings under any schedule; under a schedule
    that lets the runs proceed it raises the exception of a run that
    failed, and the run of the lead agent that asked for the round ends
    with that exception and without a report. *)
Theorem run_subagent_failure_aborts sched rest (messages : list message)
    first_run rounds (batch : SubagentTasks) :
  existsb fails
    (subagent_coros research_agent_run first_run (tasks batch)) = true ->
  covers sched
    (subagent_coros research_agent_run first_run (tasks batch)) = true ->
  lead_model lead_agent_instruction messages = CallTool batch ->
  (forall sched' findings,
     snd (run_subagent research_agent_run sched' first_run batch)
     <> Done (Return findings))
  /\ exists e,
       snd (run_subagent research_agent_run sched first_run batch)
       = Done (Raise e)
       /\ (exists (i : nat) task,
             tasks batch !! i = Some task
             /\ final (research_agent_run (first_run + i)
                         (research_prompt task)) = Raise e)
       /\ lead_agent_loop research_agent_run lead_model (sched :: rest)
            messages first_run rounds
          = Aborted e (S rounds).
Proof.
  intros Hfail Hcov Hcall. split.
  - intros sched' findings Hret. unfold run_subagent in Hret.
    destruct (gather sched' _) as [tr [[results|e]|]] eqn:Hg;
      try discriminate Hret.
    by apply (gather_never_returns sched' _ tr results Hfail).
  - destruct (gather_raises sched _ Hfail Hcov)
      as (tr & e & Hg & j & c & Hj & Hc).
    assert (snd (run_subagent research_agent_run sched first_run batch)
            = Done (Raise e)) as Hrun
      by (unfold run_subagent; by rewrite Hg).
    exists e. split; [done|]. split.
    + destruct (lookup_lt_is_Some_2 (tasks batch) j) as [task Htask].
      { rewrite <- (subagent_coros_length first_run).
        by eapply lookup_lt_Some. }
      exists j, task. split; [done|].
      rewrite (subagent_coros_lookup _ _ _ _ Htask) in Hj.
      by injection Hj as ->.
    + destruct rest; cbn [lead_agent_loop]; by rewrite Hcall, Hrun.
Qed.

(** The limit is part of the instructions the lead model is given. *)
Lemma instruction_states_limit :
  contains
    "Maximum of 2 follow-up research rounds after initial research to prevent loops"
    lead_agent_instruction = true.
Proof. vm_compute. reflexivity. Qed.

End DispatchProofs.

Section TaskProofs.

Variable validation_text : string -> value -> string.

(** C8, as amended.  Construction of a [Task] succeeds exactly on a
    dictionary whose [description] and [focus_area] are strings, empty ones
    included, and the fields are those strings; a [SubagentTasks] with an
    empty list of tasks is constructed as well, and [run_subagent] on it
    creates no agent run and returns the empty list of findings. *)
Theorem Task_requires_strings :
  (forall v task,
     Task_validate validation_text v = Return task <->
     exists d, v = VDict d
       /\ dict_get "description" d = Some (VStr (description task))
       /\ dict_get "focus_area" d = Some (VStr (focus_area task)))
  /\ SubagentTasks_validate validation_text (VDict [("tasks", VList [])])
     = Return (mk_SubagentTasks [])
  /\ forall research_agent_run sched first_run,
       run_subagent research_agent_run sched first_run (mk_SubagentTasks [])
       = ([Returned 0], Done (Return [])).
Proof.
  split; [|split; [reflexivity|reflexivity]].
  intros v [desc focus]. split.
  - unfold Task_validate, invalid. destruct v as [| | | | | |d]; try done.
    destruct (dict_get "description" d) as [[| | | |s1| |]|] eqn:Hd;
      try done;
      destruct (dict_get "focus_area" d) as [[| | | |s2| |]|] eqn:Hf;
      try done.
    intros [= -> ->]. by exists d.
  - intros (d & -> & Hd & Hf). cbn in Hd, Hf.
    unfold Task_validate. by rewrite Hd, Hf.
Qed.

End TaskProofs.

Lemma run_subagent_positional_witness :
  exists findings : list string,
    snd (run_subagent slow_agent [2; 2; 2; 1; 0; 0; 0]%nat 0 example_batch)
    = Done (Return findings)
    /\ length findings = length (tasks example_batch)
    /\ forall (i : nat) task, tasks example_batch !! i = Some task ->
         exists r,
           final (slow_agent (0 + i) (research_prompt task)) = Return r
           /\ findings !! i = Some (output r).
Proof.
  apply (run_subagent_positional slow_agent [2; 2; 2; 1; 0; 0; 0]%nat 0
           example_batch); reflexivity.
Defined.

Lemma run_subagent_failure_aborts_witness :
  exists e,
    snd (run_subagent flaky_agent [0; 1; 2; 0; 1; 2; 0; 2]%nat 0 example_batch)
    = Done (Raise e)
    /\ (exists (i : nat) task,
          tasks example_batch !! i = Some task
          /\ final (flaky_agent (0 + i) (research_prompt task)) = Raise e)
    /\ lead_agent_loop flaky_agent eager_model
         ([0; 1; 2; 0; 1; 2; 0; 2]%nat :: [])
         [UserPrompt "When was the AISoC started and who is the founder?"]
         0 0
       = Aborted e 1.
Proof.
  apply (run_subagent_failure_aborts flaky_agent eager_model
           [0; 1; 2; 0; 1; 2; 0; 2]%nat []
           [UserPrompt "When was the AISoC started and who is the founder?"]
           0%nat 0%nat example_batch); reflexivity.
Defined.

(** ** The run of the lead agent *)

Lemma succeed_or_fail {A} (coros : list (coro A)) :
  forallb succeeds coros = true \/ existsb fails coros = true.
Proof.
  induction coros as [|c coros [IH|IH]]; cbn; [by left| |].
  - unfold fails. destruct (succeeds c); cbn; [by left|by right].
  - right. by rewrite IH, orb_true_r.
Qed.

Lemma returns_shown_app (messages more : list message) :
  returns_shown (messages ++ more)
  = (returns_shown messages + returns_shown more)%nat.
Proof.
  induction messages as [|[text|b|f] messages IH]; cbn; by rewrite ?IH.
Qed.

Lemma returns_shown_calls (batches : list SubagentTasks) :
  returns_shown (ToolCall <$> batches) = 0%nat.
Proof. by induction batches. Qed.

Lemma returns_shown_returns (returns : list (list string)) :
  returns_shown (ToolReturn <$> returns) = length returns.
Proof. induction returns as [|f returns IH]; cbn; by rewrite ?IH. Qed.

Lemma most_slices_le {A} (coros : list (coro A)) (c : coro A) :
  c ∈ coros -> (slices c <= most_slices coros)%nat.
Proof.
  induction 1 as [c coros|c c' coros _ IH].
  - change (slices c <= Nat.max (slices c) (most_slices coros))%nat. lia.
  - change (slices c <= Nat.max (slices c') (most_slices coros))%nat. lia.
Qed.

Lemma turns_in_turn (m n j : nat) :
  (j < n)%nat -> turns (concat (replicate m (seq 0 n))) j = m.
Proof.
  intros Hj. unfold turns. induction m as [|m IH]; cbn; [done|].
  rewrite count_occ_app, IH.
  assert (count_occ Nat.eq_dec (seq 0 n) j = 1%nat) as ->; [|done].
  apply NoDup_count_occ'; [apply seq_NoDup|]. apply in_seq. lia.
Qed.

Lemma round_robin_fair : fair round_robin.
Proof.
  intros round coros. unfold covers. apply forallb_forall. intros [j c] Hin.
  apply list_elem_of_In, elem_of_lookup_imap in Hin
    as (j' & c' & [= -> ->] & Hj).
  cbn. apply Nat.leb_le. unfold round_robin.
  rewrite turns_in_turn by (by eapply lookup_lt_Some).
  apply most_slices_le. by eapply list_elem_of_lookup_2.
Qed.

Section LeadRunProofs.

Variable research_agent_run : nat -> string -> coro AgentRunResult.
Variable lead : string -> list message -> lead_reply.
Variable event_loop : nat -> list (coro AgentRunResult) -> list nat.

(** Under a schedule that lets the runs finish, a round ends: it returns
    or it raises. *)
Lemma run_subagent_ends sched first_run (batch : SubagentTasks) :
  covers sched
    (subagent_coros research_agent_run first_run (tasks batch)) = true ->
  snd (run_subagent research_agent_run sched first_run batch) <> Blocked.
Proof.
  intros Hcov. unfold run_subagent.
  destruct (succeed_or_fail
              (subagent_coros research_agent_run first_run (tasks batch)))
    as [Hok|Hfail].
  - destruct (gather_returns sched _ Hok Hcov) as (tr & results & -> & _).
    done.
  - destruct (gather_raises sched _ Hfail Hcov) as (tr & e & -> & _). done.
Qed.

Lemma dispatch_calls_ends round first_run (batches : list SubagentTasks) :
  fair event_loop ->
  dispatch_calls research_agent_run event_loop round first_run batches
  <> Blocked.
Proof.
  intros Hfair. revert round first_run.
  induction batches as [|batch rest IH]; intros round first_run;
    cbn [dispatch_calls]; [done|].
  pose proof (run_subagent_ends _ first_run batch (Hfair round _)) as Hends.
  destruct (snd (run_subagent _ _ first_run batch)) as [[findings|e]|];
    [|done|done].
  specialize (IH (S round) (first_run + length (tasks batch))%nat).
  by destruct (dispatch_calls _ _ _ _ rest) as [[others|e]|].
Qed.

Lemma dispatch_calls_length round first_run (batches : list SubagentTasks)
    (returns : list (list string)) :
  dispatch_calls research_agent_run event_loop round first_run batches
  = Done (Return returns) ->
  length returns = length batches.
Proof.
  revert round first_run returns.
  induction batches as [|batch rest IH]; intros round first_run returns;
    cbn [dispatch_calls]; [by intros [= <-]|].
  destruct (snd (run_subagent _ _ first_run batch)) as [[findings|e]|];
    [|done|done].
  destruct (dispatch_calls _ _ _ _ rest) as [[others|e]|] eqn:Hrest;
    [|done|done].
  intros [= <-]. cbn. f_equal. by eapply IH.
Qed.

Lemma dispatch_calls_returns round first_run (batches : list SubagentTasks) :
  fair event_loop ->
  (forall n prompt, succeeds (research_agent_run n prompt) = true) ->
  exists returns,
    dispatch_calls research_agent_run event_loop round first_run batches
    = Done (Return returns).
Proof.
  intros Hfair Hok. revert round first_run.
  induction batches as [|batch rest IH]; intros round first_run;
    cbn [dispatch_calls]; [by eexists|].
  assert (forallb succeeds
            (subagent_coros research_agent_run first_run (tasks batch))
          = true) as Hall.
  { apply forallb_forall. intros c Hin.
    apply list_elem_of_In, elem_of_lookup_imap in Hin
      as (i & task & -> & _).
    apply Hok. }
  destruct (gather_returns _ _ Hall (Hfair round _))
    as (tr & results & Hg & _).
  unfold run_subagent. rewrite Hg. cbn [snd].
  destruct (IH (S round) (first_run + length (tasks batch))%nat)
    as [others ->].
  by eexists.
Qed.

Lemma lead_agent_requests_bounded budget (messages : list message)
    first_run rounds requests :
  (requests_made
     (lead_agent_requests research_agent_run lead event_loop budget
        messages first_run rounds requests) <= requests + budget)%nat.
Proof.
  revert messages first_run rounds requests.
  induction budget as [|budget IH]; intros messages first_run rounds requests;
    cbn [lead_agent_requests]; [cbn; lia|].
  destruct (lead lead_agent_instruction messages) as [batch more|text];
    [|cbn; lia].
  destruct (dispatch_calls _ _ _ _ _) as [[returns|e]|]; [|cbn; lia|cbn; lia].
  etrans; [apply IH|lia].
Qed.

Lemma lead_agent_requests_not_waiting budget (messages : list message)
    first_run rounds requests :
  fair event_loop ->
  ending
    (lead_agent_requests research_agent_run lead event_loop budget
       messages first_run rounds requests) <> Waiting.
Proof.
  intros Hfair. revert messages first_run rounds requests.
  induction budget as [|budget IH]; intros messages first_run rounds requests;
    cbn [lead_agent_requests]; [done|].
  destruct (lead lead_agent_instruction messages) as [batch more|text];
    [|done].
  pose proof (dispatch_calls_ends rounds first_run (batch :: more) Hfair)
    as Hends.
  destruct (dispatch_calls _ _ _ _ _) as [[returns|e]|]; [|done|done].
  apply IH.
Qed.

Lemma lead_agent_requests_rounds budget (messages : list message)
    first_run rounds requests :
  keeps_round_limit lead ->
  rounds = returns_shown messages -> (rounds <= 3)%nat ->
  (rounds_run
     (lead_agent_requests research_agent_run lead event_loop budget
        messages first_run rounds requests) <= 3)%nat.
Proof.
  intros Hlimit. revert messages first_run rounds requests.
  induction budget as [|budget IH]; intros messages first_run rounds requests
    Hshown Hle; cbn [lead_agent_requests]; [done|].
  destruct (lead lead_agent_instruction messages) as [batch more|text]
    eqn:Hreply; [|done].
  pose proof (Hlimit messages batch more Hreply) as Hcalls.
  destruct (dispatch_calls _ _ _ _ _) as [[returns|e]|] eqn:Hcalled;
    cbn [rounds_run length]; [|lia|lia].
  apply dispatch_calls_length in Hcalled. apply IH.
  - rewrite !returns_shown_app, returns_shown_calls, returns_shown_returns.
    rewrite Hcalled. cbn [length]. lia.
  - cbn [length]. lia.
Qed.


Lemma lead_agent_requests_exhausted budget (messages : list message)
    first_run rounds requests :
  never_answers lead -> fair event_loop ->
  (forall n prompt, succeeds (research_agent_run n prompt) = true) ->
  let s := lead_agent_requests research_agent_run lead event_loop budget
             messages first_run rounds requests in
  ending s = LimitReached
  /\ requests_made s = (requests + budget)%nat
  /\ (rounds + budget <= rounds_run s)%nat.
Proof.
  intros Hnever Hfair Hok. revert messages first_run rounds requests.
  induction budget as [|budget IH]; intros messages first_run rounds requests;
    cbn [lead_agent_requests]; [cbn; by repeat split; lia|].
  destruct (Hnever messages) as (batch & more & ->).
  destruct (dispatch_calls_returns rounds first_run (batch :: more) Hfair Hok)
    as [returns ->].
  destruct (IH (messages ++ (ToolCall <$> batch :: more)
                ++ (ToolReturn <$> returns))
              (first_run + runs_created (batch :: more))%nat
              (rounds + length (batch :: more))%nat (S requests))
    as (Hend & Hreq & Hrounds).
  split; [exact Hend|]. split.
  - etrans; [exact Hreq|lia].
  - etrans; [|exact Hrounds]. cbn [length]. lia.
Qed.


End LeadRunProofs.

Lemma persistent_keeps_limit : keeps_round_limit (persistent 3).
Proof.
  intros messages batch more. unfold persistent.
  destruct (3 <=? returns_shown messages)%nat eqn:Hshown; [done|].
  intros [= _ <-]. apply Nat.leb_gt in Hshown. cbn. lia.
Qed.




(** C8, as stated, fails: a task with empty description and focus area is
    constructed, so is an empty batch, and [run_subagent] on the empty
    batch returns the empty list instead of rejecting it. *)
Lemma empty_task_and_batch_accepted :
  Task_validate plain_validation_text
    (VDict [("description", VStr ""); ("focus_area", VStr "")])
  = Return (mk_Task "" "")
  /\ SubagentTasks_validate plain_validation_text
       (VDict [("tasks", VList [])])
     = Return (mk_SubagentTasks [])
  /\ run_subagent instant_agent [] 0 (mk_SubagentTasks [])
     = ([Returned 0], Done (Return [])).
Proof. repeat split; reflexivity. Qed.

(** * Further properties *)

(** ** format_search_results on any input *)

Section FormatterEdges.

Variable py_repr : value -> string.
Variable fault_text : py_fault -> string.

Lemma obind_ext {A B} (x : outcome A) (f g : A -> outcome B) :
  (forall a, f a = g a) -> obind x f = obind x g.
Proof. intros Hfg. destruct x; cbn; [apply Hfg|done]. Qed.

Lemma format_results_app (l1 l2 : list value) (acc : list string) :
  format_results py_repr fault_text (l1 ++ l2) acc
  = obind (format_results py_repr fault_text l1 acc)
      (format_results py_repr fault_text l2).
Proof.
  revert acc. induction l1 as [|entry l1 IH]; intros acc; [done|].
  cbn [app format_results].
  destruct (has_truthy fault_text "content" entry) as [[|]|e];
    cbn [obind]; [|apply IH|done].
  destruct (py_get fault_text entry "title" _) as [title|e];
    cbn [obind]; [|done].
  destruct (py_get fault_text entry "url" _) as [url|e];
    cbn [obind]; [|done].
  destruct (py_getitem fault_text entry "content") as [content|e];
    cbn [obind]; [|done].
  apply IH.
Qed.

(** What the loop adds to [content_list]: source blocks, at most one per
    entry, after what was there. *)
Lemma format_results_blocks (entries : list value) (acc blocks : list string) :
  format_results py_repr fault_text entries acc = Return blocks ->
  exists added,
    blocks = acc ++ added
    /\ (length added <= length entries)%nat
    /\ Forall (fun b => is_prefix "Source: " b = true) added.
Proof.
  revert acc. induction entries as [|entry rest IH]; intros acc;
    cbn [format_results].
  { intros [= <-]. exists []. by rewrite app_nil_r. }
  destruct (has_truthy fault_text "content" entry) as [[|]|e];
    cbn [obind]; [| |done].
  - destruct (py_get fault_text entry "title" _) as [title|e];
      cbn [obind]; [|done].
    destruct (py_get fault_text entry "url" _) as [url|e];
      cbn [obind]; [|done].
    destruct (py_getitem fault_text entry "content") as [content|e];
      cbn [obind]; [|done].
    intros (added & -> & Hlen & Hall)%IH.
    eexists (_ :: added). rewrite <- app_assoc. split; [done|].
    split; [cbn; lia|]. by constructor.
  - intros (added & -> & Hlen & Hall)%IH.
    exists added. split; [done|]. split; [cbn; lia|done].
Qed.

(** The second half of [format_search_results], from [content_list] on. *)
Lemma format_listed_blocks (v : value) (head blocks : list string) :
  obind (py_in fault_text "results" v)
    (fun listed =>
       if listed
       then obind (py_getitem fault_text v "results")
              (fun results =>
                 obind (py_iter fault_text results)
                   (fun items =>
                      format_results py_repr fault_text items head))
       else Return head) = Return blocks ->
  exists added,
    blocks = head ++ added
    /\ Forall (fun b => is_prefix "Source: " b = true) added.
Proof.
  destruct (py_in fault_text "results" v) as [[|]|e]; cbn [obind]; [| |done].
  - destruct (py_getitem fault_text v "results") as [results|e];
      cbn [obind]; [|done].
    destruct (py_iter fault_text results) as [items|e]; cbn [obind]; [|done].
    intros (added & -> & _ & Hall)%format_results_blocks. by exists added.
  - intros [= <-]. exists []. by rewrite app_nil_r.
Qed.

Lemma source_not_summary (b : string) :
  is_prefix "Source: " b = true -> is_prefix "AI Summary: " b = false.
Proof.
  destruct b as [|[[] [] [] [] [] [] [] []] b]; intros Hb;
    by try discriminate Hb.
Qed.

Lemma blocks_shape (head added : list string) :
  head = [] \/ (exists answer, head = ["AI Summary: " +:+ answer]) ->
  Forall (fun b => is_prefix "Source: " b = true) added ->
  Forall (fun b => is_block b = true) (head ++ added)
  /\ forall (i : nat) b,
       (head ++ added) !! i = Some b ->
       is_prefix "AI Summary: " b = true -> i = 0%nat.
Proof.
  intros Hhead Hall.
  assert (Forall (fun b => is_block b = true) added) as Hblocks.
  { eapply Forall_impl; [exact Hall|]. intros b Hb. unfold is_block.
    by rewrite Hb, orb_true_r. }
  assert (forall b, b ∈ added -> is_prefix "AI Summary: " b = false) as Hno.
  { intros b Hb. rewrite Forall_forall in Hall.
    by apply source_not_summary, Hall. }
  destruct Hhead as [->|[answer ->]]; cbn [app].
  - split; [done|]. intros i b Hi Hb. apply list_elem_of_lookup_2 in Hi.
    by rewrite (Hno b Hi) in Hb.
  - split; [by constructor|].
    intros [|i] b Hi Hb; [done|]. cbn in Hi.
    apply list_elem_of_lookup_2 in Hi. by rewrite (Hno b Hi) in Hb.
Qed.

(** X1.  Whatever value it is given, when [format_search_results] returns, it
    returns at most one summary block, in first place, followed by source
    blocks only. *)
Theorem format_search_results_blocks (v : value) (blocks : list string) :
  format_search_results py_repr fault_text v = Return blocks ->
  Forall (fun b => is_block b = true) blocks
  /\ forall (i : nat) b,
       blocks !! i = Some b -> is_prefix "AI Summary: " b = true -> i = 0%nat.
Proof.
  unfold format_search_results. cbv zeta.
  destruct (has_truthy fault_text "answer" v) as [[|]|e]; cbn [obind];
    [| |done].
  - destruct (py_getitem fault_text v "answer") as [answer|e];
      cbn [obind app]; [|done].
    intros (added & -> & Hall)%format_listed_blocks.
    apply blocks_shape; [|done]. right. by eexists.
  - intros (added & -> & Hall)%format_listed_blocks.
    apply blocks_shape; [by left|done].
Qed.

(** The summary part on a dictionary whose answer is absent, null or a
    string: it does not raise. *)
Lemma summary_of_optional_answer (d : list (string * value)) :
  optional_answer d = true ->
  obind (has_truthy fault_text "answer" (VDict d))
    (fun summarised =>
       if summarised
       then obind (py_getitem fault_text (VDict d) "answer")
              (fun answer =>
                 Return ([] ++ ["AI Summary: " +:+ py_str py_repr answer]))
       else Return [])
  = Return (described_summary d).
Proof.
  unfold optional_answer, described_summary, field.
  cbn [has_truthy py_in py_getitem obind].
  destruct (dict_get "answer" d) as [[| | | |answer| |]|]; try done; intros _.
  rewrite bool_decide_true by eauto. cbn [obind py_truthy].
  by destruct (String.eqb answer "").
Qed.

(** [format_search_results] on a dictionary, in two halves. *)
Lemma format_search_results_halves (d : list (string * value)) :
  format_search_results py_repr fault_text (VDict d)
  = obind
      (obind (has_truthy fault_text "answer" (VDict d))
         (fun summarised =>
            if summarised
            then obind (py_getitem fault_text (VDict d) "answer")
                   (fun answer =>
                      Return ([] ++ ["AI Summary: "
                                     +:+ py_str py_repr answer]))
            else Return []))
      (fun head =>
         match dict_get "results" d with
         | Some results =>
             obind (py_iter fault_text results)
               (fun items => format_results py_repr fault_text items head)
         | None => Return head
         end).
Proof.
  unfold format_search_results. cbv zeta.
  destruct (has_truthy fault_text "answer" (VDict d)) as [[|]|e];
    cbn [obind]; [| |done].
  - destruct (py_getitem fault_text (VDict d) "answer") as [answer|e];
      cbn [obind py_in py_getitem]; [|done].
    destruct (dict_get "results" d) as [results|].
    + by rewrite bool_decide_true by eauto.
    + by rewrite bool_decide_false by (intros [? ?]; discriminate).
  - cbn [py_in py_getitem].
    destruct (dict_get "results" d) as [results|].
    + by rewrite bool_decide_true by eauto.
    + by rewrite bool_decide_false by (intros [? ?]; discriminate).
Qed.

(** The loop over items that are strings: none gives a block. *)
Lemma format_results_strings (items : list value) (acc blocks : list string) :
  Forall (fun item => exists s, item = VStr s) items ->
  format_results py_repr fault_text items acc = Return blocks ->
  blocks = acc.
Proof.
  intros Hall. revert acc. induction Hall as [|item rest [s ->] _ IH];
    intros acc; cbn [format_results has_truthy py_in py_getitem obind].
  { by intros [= <-]. }
  destruct (contains "content" s); cbn [obind fault]; [done|]. apply IH.
Qed.

(** X2.  When [format_search_results] returns on a dictionary, it returns at
    most one block more than there are entries in a [results] list, and at
    most one block when [results] is no list. *)
Theorem format_search_results_bounded (d : list (string * value))
    (blocks : list string) :
  format_search_results py_repr fault_text (VDict d) = Return blocks ->
  (length blocks <= S (length (described_entries d)))%nat.
Proof.
  rewrite format_search_results_halves.
  destruct (obind (has_truthy fault_text "answer" (VDict d)) _)
    as [head|e] eqn:Hhead; cbn [obind]; [|done].
  assert (length head <= 1)%nat as Hone.
  { revert Hhead.
    destruct (has_truthy fault_text "answer" (VDict d)) as [[|]|e];
      cbn [obind]; [| |done].
    - destruct (py_getitem fault_text (VDict d) "answer") as [answer|e];
        cbn [obind app]; [|done]. by intros [= <-].
    - intros [= <-]. cbn. lia. }
  unfold described_entries.
  destruct (dict_get "results" d) as [[| | | |s|entries|keys]|];
    cbn [py_iter obind fault]; try done.
  - intros ->%format_results_strings; [cbn; lia|].
    clear. induction s; cbn [chars]; constructor; eauto.
  - intros (added & -> & Hlen & _)%format_results_blocks.
    rewrite length_app. lia.
  - intros ->%format_results_strings; [cbn; lia|].
    clear. induction keys; cbn [map]; constructor; eauto.
  - intros [= <-]. cbn. lia.
Qed.

(** X3.  One entry of the [results] list that is null, a number or a boolean
    makes [format_search_results] raise a [TypeError], whatever the
    entries before and after it; no block is returned. *)
Theorem format_search_results_scalar_entry (d : list (string * value))
    (before after : list value) (bad : value) :
  optional_answer d = true ->
  dict_get "results" d = Some (VList (before ++ bad :: after)) ->
  forallb is_entry before = true ->
  scalar bad = true ->
  format_search_results py_repr fault_text (VDict d)
  = Raise (mk_exn TypeError (fault_text (NotAContainer bad))).
Proof.
  intros Hanswer Hresults Hbefore Hbad.
  rewrite format_search_results_halves, summary_of_optional_answer by done.
  rewrite Hresults. cbn [obind py_iter].
  rewrite format_results_app, format_results_described by done.
  cbn [obind format_results has_truthy].
  by destruct bad.
Qed.

Lemma contains_content_char (a : ascii) :
  contains "content" (String a EmptyString) = false.
Proof. cbn. by rewrite andb_false_r. Qed.

(** X4.  A [results] that is a string is gone through character by character
    and gives neither a block nor an error. *)
Theorem format_search_results_string_results (d : list (string * value))
    (s : string) :
  optional_answer d = true ->
  dict_get "results" d = Some (VStr s) ->
  format_search_results py_repr fault_text (VDict d)
  = Return (described_summary d).
Proof.
  intros Hanswer Hresults.
  rewrite format_search_results_halves, summary_of_optional_answer by done.
  rewrite Hresults. cbn [obind py_iter].
  generalize (described_summary d) as acc. clear.
  induction s as [|a s IH]; intros acc; [done|].
  cbn [chars format_results has_truthy py_in obind].
  rewrite contains_content_char. cbn [obind]. apply IH.
Qed.

Lemma format_results_same (entries entries' : list value) (acc : list string) :
  Forall2 same_entry entries entries' ->
  format_results py_repr fault_text entries acc
  = format_results py_repr fault_text entries' acc.
Proof.
  intros Hsame. revert acc.
  induction Hsame as [|entry entry' rest rest' Hentry _ IH]; intros acc;
    [done|].
  cbn [format_results].
  assert (forall k, k = "content" \/ k = "title" \/ k = "url" ->
            py_in fault_text k entry = py_in fault_text k entry'
            /\ py_getitem fault_text entry k = py_getitem fault_text entry' k
            /\ forall dflt, py_get fault_text entry k dflt
                             = py_get fault_text entry' k dflt) as Hk.
  { intros k Hcase. unfold same_entry in Hentry.
    destruct entry as [| | | | | |e], entry' as [| | | | | |e'];
      try (by simplify_eq; repeat split).
    destruct Hentry as (Hc & Ht & Hu).
    cbn [py_in py_getitem py_get].
    by destruct Hcase as [->|[->| ->]]; rewrite ?Hc, ?Ht, ?Hu. }
  unfold has_truthy.
  destruct (Hk "content") as (-> & -> & _); [by left|].
  destruct (Hk "title") as (_ & _ & ->); [by right; left|].
  destruct (Hk "url") as (_ & _ & ->); [by right; right|].
  destruct (py_in fault_text "content" entry') as [[|]|e]; cbn [obind];
    [|apply IH|done].
  destruct (py_getitem fault_text entry' "content") as [content|e];
    cbn [obind]; [|done].
  destruct (py_truthy content); [|apply IH].
  destruct (py_get fault_text entry' "title" _) as [title|e];
    cbn [obind]; [|done].
  destruct (py_get fault_text entry' "url" _) as [url|e];
    cbn [obind]; [|done].
  apply IH.
Qed.

(** X5.  [format_search_results] reads [answer] and [results] of the
    dictionary, and [content], [title] and [url] of each entry, and
    nothing else: two dictionaries that agree on these give the same
    result, returned or raised. *)
Theorem format_search_results_reads_only (d d' : list (string * value))
    (entries entries' : list value) :
  dict_get "answer" d = dict_get "answer" d' ->
  dict_get "results" d = Some (VList entries) ->
  dict_get "results" d' = Some (VList entries') ->
  Forall2 same_entry entries entries' ->
  format_search_results py_repr fault_text (VDict d)
  = format_search_results py_repr fault_text (VDict d').
Proof.
  intros Hanswer Hresults Hresults' Hsame.
  rewrite !format_search_results_halves.
  unfold has_truthy. cbn [py_in py_getitem].
  rewrite Hanswer, Hresults, Hresults'. cbn [py_iter obind].
  apply obind_ext. intros head. by apply format_results_same.
Qed.

End FormatterEdges.

(** ** search_web and search_tool in every case *)

Section SearchEdges.

Variable py_repr : value -> string.
Variable fault_text : py_fault -> string.
Variable TavilyClient_init : string -> outcome unit.
Variable tavily_service : list net_call -> net_call -> outcome value.

Ltac run_search :=
  unfold search_tool, search_web, try_except, bind,
    os_getenv, raise, ret, lift, TavilyClient, client_search;
  cbn [environ network obind].

Lemma is_prefix_app (p s : string) : is_prefix p (p +:+ s) = true.
Proof.
  induction p as [|a p IH]; [done|].
  change (Ascii.eqb a a && is_prefix p (p +:+ s) = true).
  by rewrite Ascii.eqb_refl, IH.
Qed.

(** X6.  Whatever the arguments, the environment and the outcome, a call of
    [search_web] leaves the environment as it is and sends no request or
    exactly one, with the arguments of the call and under the key of the
    environment. *)
Theorem search_web_one_request query max_results include_answer
    include_raw_content search_depth (w : world) :
  let w' := snd (search_web TavilyClient_init tavily_service query
                   max_results include_answer include_raw_content
                   search_depth w) in
  environ w' = environ w
  /\ (network w' = network w
      \/ network w'
         = network w ++
           [mk_call (key_text (environ w !! "TAVILY_API_KEY"))
              (mk_request query max_results include_answer
                 include_raw_content search_depth)]).
Proof.
  run_search. destruct (not_key _); [by auto|].
  destruct (TavilyClient_init _) as [[]|e]; cbn [obind client_api_key].
  - destruct (tavily_service _ _) as [r|e]; [by auto|].
    destruct (is_Exception e); by auto.
  - destruct (is_Exception e); by auto.
Qed.

(** X7.  When the constructor of the client raises, [search_web] raises its
    wrapped exception and no request has been sent. *)
Theorem search_web_client_rejected query max_results include_answer
    include_raw_content search_depth (w : world) (k : string) (e : py_exn) :
  environ w !! "TAVILY_API_KEY" = Some k -> k <> "" ->
  TavilyClient_init k = Raise e -> is_Exception e = true ->
  search_web TavilyClient_init tavily_service query max_results
    include_answer include_raw_content search_depth w
  = (Raise (mk_exn Exception ("Tavily API request failed: " +:+ exn_str e)),
     w).
Proof.
  intros Hkey Hk Hinit Hclass. run_search.
  rewrite Hkey. cbn [not_key key_text].
  rewrite (proj2 (String.eqb_neq k "") Hk), Hinit. cbn [obind].
  by rewrite Hclass.
Qed.

(** X8.  When what the client raises is of a class under [Exception],
    [search_web] raises exceptions of two classes only: [ValueError], with
    the fixed message and when the key is missing, and [Exception], with a
    message that starts with [Tavily API request failed: ]. *)
Theorem search_web_error_kinds query max_results include_answer
    include_raw_content search_depth (w : world) (e : py_exn) :
  let k := key_text (environ w !! "TAVILY_API_KEY") in
  catchable (TavilyClient_init k) ->
  catchable
    (tavily_service (network w)
       (mk_call k (mk_request query max_results include_answer
                     include_raw_content search_depth))) ->
  fst (search_web TavilyClient_init tavily_service query max_results
         include_answer include_raw_content search_depth w) = Raise e ->
  (e = mk_exn ValueError missing_key_message
   /\ not_key (environ w !! "TAVILY_API_KEY") = true)
  \/ (exn_cls e = Exception
      /\ is_prefix "Tavily API request failed: " (exn_str e) = true
      /\ not_key (environ w !! "TAVILY_API_KEY") = false).
Proof.
  intros k Hinit Hservice. run_search.
  destruct (not_key _) eqn:Hkey; cbn [fst]; [intros [= <-]; by left|].
  fold k.
  destruct (TavilyClient_init k) as [[]|e0] eqn:Hi; cbn [obind client_api_key].
  - destruct (tavily_service _ _) as [r|e0] eqn:Hs; [done|].
    rewrite (Hservice e0 eq_refl). cbn [fst]. intros [= <-]. right.
    cbn [exn_cls exn_str]. by rewrite is_prefix_app.
  - rewrite (Hinit e0 eq_refl). cbn [fst]. intros [= <-]. right.
    cbn [exn_cls exn_str]. by rewrite is_prefix_app.
Qed.

(** X9.  An exception of the service that is not under [Exception] is neither
    wrapped by [search_web] nor turned into text by [search_tool]: both
    raise it as it is. *)
Theorem search_passes_base_exception query max_results (w : world)
    (k : string) (e : py_exn) :
  environ w !! "TAVILY_API_KEY" = Some k -> k <> "" ->
  TavilyClient_init k = Return () ->
  tavily_service (network w)
    (mk_call k (mk_request query max_results false false "basic")) = Raise e ->
  is_Exception e = false ->
  fst (search_web TavilyClient_init tavily_service query max_results
         false false "basic" w) = Raise e
  /\ fst (search_tool py_repr fault_text TavilyClient_init tavily_service
            query max_results w) = Raise e.
Proof.
  intros Hkey Hk Hinit Hfail Hclass. run_search.
  rewrite Hkey. cbn [not_key key_text].
  rewrite (proj2 (String.eqb_neq k "") Hk), Hinit.
  cbn [obind client_api_key].
  change search_web_include_answer with false.
  change search_web_include_raw_content with false.
  change search_web_search_depth with "basic".
  by rewrite Hfail, !Hclass.
Qed.

(** X10.  [search_tool] never raises an exception of a class under
    [Exception]. *)
Theorem search_tool_raises_no_Exception query max_results (w : world)
    (e : py_exn) :
  fst (search_tool py_repr fault_text TavilyClient_init tavily_service
         query max_results w) = Raise e ->
  is_Exception e = false.
Proof.
  unfold search_tool, try_except, bind, lift, ret.
  destruct (search_web _ _ _ _ _ _ _ w) as [[response|e0] w'].
  - destruct (format_search_results _ _ response) as [blocks|e0];
      [done|].
    destruct (is_Exception e0) eqn:He0; [done|]. by intros [= <-].
  - destruct (is_Exception e0) eqn:He0; [done|]. by intros [= <-].
Qed.

(** X11.  [search_tool] changes the world as its call of [search_web] does, and
    no further: the formatting and the handling of errors reach neither
    the environment nor the network. *)
Theorem search_tool_effect query max_results (w : world) :
  snd (search_tool py_repr fault_text TavilyClient_init tavily_service
         query max_results w)
  = snd (search_web TavilyClient_init tavily_service query max_results
           false false "basic" w).
Proof.
  unfold search_tool, try_except, bind, lift, ret.
  change search_web_include_answer with false.
  change search_web_include_raw_content with false.
  change search_web_search_depth with "basic".
  destruct (search_web _ _ _ _ _ _ _ w) as [[response|e0] w'].
  - destruct (format_search_results _ _ response) as [blocks|e0]; [done|].
    by destruct (is_Exception e0).
  - by destruct (is_Exception e0).
Qed.

(** X12.  Every string [search_tool] returns starts with the header that repeats
    the query or with [Error performing web search: ]. *)
Theorem search_tool_output_prefix query max_results (w : world)
    (text : string) :
  fst (search_tool py_repr fault_text TavilyClient_init tavily_service
         query max_results w) = Return text ->
  is_prefix ("Web Search Query: " +:+ query +:+ nl +:+ nl) text = true
  \/ is_prefix "Error performing web search: " text = true.
Proof.
  unfold search_tool, try_except, bind, lift, ret.
  destruct (search_web _ _ _ _ _ _ _ w) as [[response|e0] w'].
  - destruct (format_search_results _ _ response) as [blocks|e0].
    + intros [= <-]. left. apply is_prefix_app.
    + destruct (is_Exception e0); [|done]. intros [= <-]. by right.
  - destruct (is_Exception e0); [|done]. intros [= <-]. by right.
Qed.

(** X13.  A response the formatter cannot go through is reported like a failed
    search: when [search_web] returns and [format_search_results] raises,
    [search_tool] returns the error text with the message of the
    formatter's exception. *)
Theorem search_tool_malformed_response query max_results (w w' : world)
    (response : value) (e : py_exn) :
  search_web TavilyClient_init tavily_service query max_results
    false false "basic" w = (Return response, w') ->
  format_search_results py_repr fault_text response = Raise e ->
  search_tool py_repr fault_text TavilyClient_init tavily_service
    query max_results w
  = (Return ("Error performing web search: " +:+ exn_str e), w').
Proof.
  intros Hsearch Hformat.
  unfold search_tool, try_except, bind, lift, ret.
  change search_web_include_answer with false.
  change search_web_include_raw_content with false.
  change search_web_search_depth with "basic".
  rewrite Hsearch, Hformat.
  by rewrite (catchable_format_search_results py_repr fault_text
                response e Hformat).
Qed.

End SearchEdges.

(** ** The event loop in every case *)

Section GatherEdges.

Context {A : Type}.
Implicit Types (slots : list (slot A)) (sched : list nat) (tr : list event).

(** When the loop hands over an exception, the last thing it did was to
    resume the task that raised it, and no task had failed before. *)
Lemma gather_loop_failed sched slots tr (e : py_exn) :
  gather_loop sched slots = (tr, Done (Raise e)) ->
  exists before (j : nat),
    tr = before ++ [Resumed j; Failed j]
    /\ slot_final <$> slots !! j = Some (Raise e)
    /\ Forall (fun ev => forall i, ev <> Failed i) before.
Proof.
  revert slots tr. induction sched as [|i sched IH]; intros slots tr;
    cbn [gather_loop]; [done|].
  destruct (slots !! i) as [[[[a|e']|k]|a]|] eqn:Hi.
  - destruct (collect (<[i := Resolved a]> slots)) as [rs|]; [done|].
    destruct (gather_loop sched _) as [tr' r'] eqn:Hloop.
    intros [= <- ->].
    destruct (IH _ _ Hloop) as (before & j & -> & Hj & Hnone).
    exists (Resumed i :: Completed i :: before), j. split; [done|]. split.
    + destruct (decide (i = j)) as [<-|Hne].
      * rewrite list_lookup_insert_eq in Hj by (by eapply lookup_lt_Some).
        discriminate Hj.
      * by rewrite list_lookup_insert_ne in Hj.
    + by repeat constructor.
  - intros [= <- <-]. exists [], i. rewrite Hi. by repeat split.
  - destruct (gather_loop sched _) as [tr' r'] eqn:Hloop.
    intros [= <- ->].
    destruct (IH _ _ Hloop) as (before & j & -> & Hj & Hnone).
    exists (Resumed i :: before), j. split; [done|]. split.
    + destruct (decide (i = j)) as [<-|Hne].
      * rewrite list_lookup_insert_eq in Hj by (by eapply lookup_lt_Some).
        by rewrite Hi.
      * by rewrite list_lookup_insert_ne in Hj.
    + by repeat constructor.
  - apply IH.
  - apply IH.
Qed.

Lemma turns_cons_le sched (i j : nat) :
  (turns sched j <= turns (i :: sched) j)%nat.
Proof.
  destruct (decide (i = j)) as [<-|Hne].
  - rewrite turns_cons_eq. lia.
  - by rewrite turns_cons_ne.
Qed.

(** The loop hands over results only under a schedule that names every
    running task as often as the task has to be resumed. *)
Lemma gather_loop_needs sched slots tr (results : list A) :
  gather_loop sched slots = (tr, Done (Return results)) ->
  enough sched slots.
Proof.
  revert slots tr. induction sched as [|i sched IH]; intros slots tr;
    cbn [gather_loop]; [done|].
  destruct (slots !! i) as [[[[a|e]|k]|a]|] eqn:Hi.
  - destruct (collect (<[i := Resolved a]> slots)) as [rs|] eqn:Hc.
    + intros _ j c Hj. destruct (decide (i = j)) as [<-|Hne].
      * rewrite Hi in Hj. injection Hj as <-. rewrite turns_cons_eq.
        cbn. lia.
      * assert (collect (<[i := Resolved a]> slots) = None) as HN.
        { apply collect_None. exists j, c.
          by rewrite list_lookup_insert_ne. }
        congruence.
    + destruct (gather_loop sched _) as [tr' r'] eqn:Hloop.
      intros [= <- ->] j c Hj. destruct (decide (i = j)) as [<-|Hne].
      * rewrite Hi in Hj. injection Hj as <-. rewrite turns_cons_eq.
        cbn. lia.
      * rewrite turns_cons_ne by done. apply (IH _ _ Hloop j c).
        by rewrite list_lookup_insert_ne.
  - done.
  - destruct (gather_loop sched _) as [tr' r'] eqn:Hloop.
    intros [= <- ->] j c Hj. destruct (decide (i = j)) as [<-|Hne].
    + rewrite Hi in Hj. injection Hj as <-. rewrite turns_cons_eq.
      cbn [slices]. apply le_n_S. apply (IH _ _ Hloop i k).
      apply list_lookup_insert_eq. by eapply lookup_lt_Some.
    + rewrite turns_cons_ne by done. apply (IH _ _ Hloop j c).
      by rewrite list_lookup_insert_ne.
  - intros Hloop j c Hj. etrans; [by apply (IH _ _ Hloop j c)|].
    apply turns_cons_le.
  - intros Hloop j c Hj. etrans; [by apply (IH _ _ Hloop j c)|].
    apply turns_cons_le.
Qed.

Lemma enough_covers sched (coros : list (coro A)) :
  enough sched (Running <$> coros) -> covers sched coros = true.
Proof.
  intros Hen. unfold covers. apply forallb_forall. intros [j c] Hin.
  apply list_elem_of_In, elem_of_lookup_imap in Hin
    as (j' & c' & [= -> ->] & Hj).
  cbn. apply Nat.leb_le, (Hen j' c'). by rewrite list_lookup_fmap, Hj.
Qed.

Lemma gather_failed sched (coros : list (coro A)) tr (e : py_exn) :
  gather sched coros = (tr, Done (Raise e)) ->
  exists before (j : nat) (c : coro A),
    tr = before ++ [Resumed j; Failed j]
    /\ coros !! j = Some c /\ final c = Raise e
    /\ Forall (fun ev => forall i, ev <> Failed i) before.
Proof.
  destruct coros as [|c0 rest]; [done|].
  rewrite gather_nonempty by done.
  intros (before & j & -> & Hj & Hnone)%gather_loop_failed.
  rewrite list_lookup_fmap in Hj.
  destruct ((c0 :: rest) !! j) as [c|] eqn:Hc; [|done].
  exists before, j, c. cbn in Hj. by simplify_eq.
Qed.

Lemma gather_needs sched (coros : list (coro A)) tr (results : list A) :
  gather sched coros = (tr, Done (Return results)) ->
  covers sched coros = true.
Proof.
  destruct coros as [|c rest]; [done|].
  rewrite gather_nonempty by done.
  intros Hloop%gather_loop_needs. by apply enough_covers.
Qed.

End GatherEdges.

(** ** run_subagent in every case *)

Section DispatchEdges.

Variable research_agent_run : nat -> string -> coro AgentRunResult.

(** X14.  Under any schedule, and whatever the agent runs do, when
    [run_subagent] returns it returns one finding per task, each the
    output of the run created from the task at its position: a partial or
    reordered list is never returned. *)
Theorem run_subagent_returned_aligned sched first_run
    (batch : SubagentTasks) (findings : list string) :
  snd (run_subagent research_agent_run sched first_run batch)
  = Done (Return findings) ->
  length findings = length (tasks batch)
  /\ forall (i : nat) task, tasks batch !! i = Some task ->
       exists r,
         final (research_agent_run (first_run + i) (research_prompt task))
         = Return r
         /\ findings !! i = Some (output r).
Proof.
  unfold run_subagent.
  destruct (gather sched _) as [tr [[results|e]|]] eqn:Hg; try done.
  cbn [snd]. intros [= <-].
  pose proof (gather_gathered _ _ _ _ Hg) as Hfin.
  split.
  - apply (f_equal length) in Hfin.
    rewrite !length_fmap, subagent_coros_length in Hfin.
    by rewrite length_fmap.
  - intros i task Hi. apply (f_equal (fun l => l !! i)) in Hfin.
    rewrite !list_lookup_fmap, (subagent_coros_lookup _ _ _ _ _ Hi) in Hfin.
    destruct (results !! i) as [r|] eqn:Hr; [|done].
    exists r. split; [by injection Hfin|].
    by rewrite list_lookup_fmap, Hr.
Qed.

(** X15.  When [run_subagent] raises, the exception is the one a run of the
    batch ended with, the failure of that run is the last event of the
    call, no other run had failed before, and nothing is returned. *)
Theorem run_subagent_fails_fast sched first_run (batch : SubagentTasks)
    (e : py_exn) :
  snd (run_subagent research_agent_run sched first_run batch)
  = Done (Raise e) ->
  exists before (j : nat) task,
    fst (run_subagent research_agent_run sched first_run batch)
    = before ++ [Resumed j; Failed j]
    /\ tasks batch !! j = Some task
    /\ final (research_agent_run (first_run + j) (research_prompt task))
       = Raise e
    /\ Forall (fun ev => forall i n, ev <> Failed i /\ ev <> Returned n)
         before.
Proof.
  unfold run_subagent.
  destruct (gather sched _) as [tr [[results|e']|]] eqn:Hg; try done.
  cbn [fst snd]. intros [= ->].
  pose proof (gather_events _ _ _ _ Hg) as Hev.
  destruct (gather_failed _ _ _ _ Hg) as (before & j & c & -> & Hj & Hc & Hnone).
  destruct (lookup_lt_is_Some_2 (tasks batch) j) as [task Htask].
  { rewrite <- (subagent_coros_length research_agent_run first_run).
    by eapply lookup_lt_Some. }
  rewrite (subagent_coros_lookup _ _ _ _ _ Htask) in Hj. injection Hj as <-.
  eexists (_ ++ before), j, task. rewrite <- app_assoc.
  split; [done|]. split; [done|]. split; [done|].
  apply Forall_app. split.
  - apply Forall_fmap, Forall_forall. by intros i _ i' n.
  - apply Forall_app in Hev as [Hev _].
    rewrite Forall_forall in Hev, Hnone. apply Forall_forall.
    intros ev Hin i n. split; [by apply Hnone|].
    intros ->. by apply (Hev _ Hin).
Qed.

Lemma fmap_Return_inj {B} (l l' : list B) :
  Return <$> l = Return <$> l' -> l = l'.
Proof.
  revert l'. induction l as [|x l IH]; intros [|y l']; try done.
  intros [= -> Hl]. f_equal. by apply IH.
Qed.

(** X16.  When every run of the batch returns, the findings do not depend on the
    schedule: any two schedules that let the runs finish give the same
    result. *)
Theorem run_subagent_schedule_independent sched sched' first_run
    (batch : SubagentTasks) :
  forallb succeeds
    (subagent_coros research_agent_run first_run (tasks batch)) = true ->
  covers sched
    (subagent_coros research_agent_run first_run (tasks batch)) = true ->
  covers sched'
    (subagent_coros research_agent_run first_run (tasks batch)) = true ->
  snd (run_subagent research_agent_run sched first_run batch)
  = snd (run_subagent research_agent_run sched' first_run batch).
Proof.
  intros Hok Hcov Hcov'.
  destruct (gather_returns sched _ Hok Hcov) as (tr & results & Hg & Hfin).
  destruct (gather_returns sched' _ Hok Hcov')
    as (tr' & results' & Hg' & Hfin').
  unfold run_subagent. rewrite Hg, Hg'. cbn [snd].
  rewrite Hfin in Hfin'.
  apply fmap_Return_inj in Hfin'. by rewrite Hfin'.
Qed.

(** X17.  When every run of the batch returns, [run_subagent] returns exactly
    under the schedules that let every run finish: under any other it is
    still waiting. *)
Theorem run_subagent_returns_iff_covers sched first_run
    (batch : SubagentTasks) :
  forallb succeeds
    (subagent_coros research_agent_run first_run (tasks batch)) = true ->
  (covers sched
     (subagent_coros research_agent_run first_run (tasks batch)) = true
   -> exists findings,
        snd (run_subagent research_agent_run sched first_run batch)
        = Done (Return findings))
  /\ (covers sched
        (subagent_coros research_agent_run first_run (tasks batch)) = false
      -> snd (run_subagent research_agent_run sched first_run batch)
         = Blocked).
Proof.
  intros Hok. split.
  - intros Hcov.
    destruct (gather_returns sched _ Hok Hcov) as (tr & results & Hg & _).
    unfold run_subagent. rewrite Hg. by eexists.
  - intros Hcov. unfold run_subagent.
    destruct (gather sched _) as [tr [[results|e]|]] eqn:Hg; [| |done].
    + apply gather_needs in Hg. congruence.
    + destruct (gather_failed _ _ _ _ Hg) as (_ & j & c & _ & Hj & Hc & _).
      rewrite forallb_forall in Hok. specialize (Hok c).
      unfold succeeds in Hok. rewrite Hc in Hok. discriminate Hok.
      apply list_elem_of_In. by eapply list_elem_of_lookup_2.
Qed.

End DispatchEdges.

(** ** Construction of a batch *)

Section TaskEdges.

Variable validation_text : string -> value -> string.

Lemma Tasks_validate_Forall2 (items : list value) (batch : list Task) :
  Tasks_validate validation_text items = Return batch <->
  Forall2 (fun item task => Task_validate validation_text item = Return task)
    items batch.
Proof.
  revert batch. induction items as [|item rest IH]; intros batch;
    cbn [Tasks_validate].
  - split; [intros [= <-]; constructor|by inversion 1].
  - destruct (Task_validate validation_text item) as [task|e] eqn:Hitem;
      cbn [obind].
    + destruct (Tasks_validate validation_text rest) as [others|e] eqn:Hrest;
        cbn [obind].
      * split.
        -- intros [= <-]. constructor; [done|]. by apply IH.
        -- inversion 1 as [|? t ? ts Ht Hts]; subst.
           apply IH in Hts. congruence.
      * split; [done|]. inversion 1 as [|? t ? ts Ht Hts]; subst.
        apply IH in Hts. congruence.
    + split; [done|]. inversion 1 as [|? t ? ts Ht Hts]; subst.
      congruence.
Qed.

(** X19.  A batch is constructed all or nothing: [SubagentTasks] is built from
    a dictionary exactly when its [tasks] is a list of which every item is
    accepted as a [Task], and it then holds the tasks of the items, as
    many and in their order; one item that is not accepted rejects the
    batch. *)
Theorem SubagentTasks_validate_all_or_nothing (v : value)
    (batch : SubagentTasks) :
  SubagentTasks_validate validation_text v = Return batch <->
  exists d items,
    v = VDict d
    /\ dict_get "tasks" d = Some (VList items)
    /\ Forall2
         (fun item task => Task_validate validation_text item = Return task)
         items (tasks batch).
Proof.
  destruct batch as [batch]. cbn [tasks]. split.
  - unfold SubagentTasks_validate, invalid.
    destruct v as [| | | | | |d]; try done.
    destruct (dict_get "tasks" d) as [[| | | | |items|]|] eqn:Hd; try done.
    destruct (Tasks_validate validation_text items) as [ts|e] eqn:Hts;
      cbn [obind]; [|done].
    intros [= <-]. exists d, items. split; [done|]. split; [done|].
    by apply Tasks_validate_Forall2.
  - intros (d & items & -> & Hd & Hall).
    apply Tasks_validate_Forall2 in Hall.
    unfold SubagentTasks_validate. by rewrite Hd, Hall.
Qed.

End TaskEdges.

(** ** The prompt of a research agent *)

Lemma string_app_inv_head (p x y : string) : p +:+ x = p +:+ y -> x = y.
Proof.
  induction p as [|a p IH]; [done|].
  change (String a (p +:+ x) = String a (p +:+ y) -> x = y).
  intros [= Hp]. by apply IH.
Qed.

Lemma single_line_split (d d' x y : string) :
  single_line d = true -> single_line d' = true ->
  d +:+ nl +:+ x = d' +:+ nl +:+ y -> d = d' /\ x = y.
Proof.
  revert d'. induction d as [|a d IH]; intros [|a' d'] Hd Hd'.
  - intros Heq. split; [done|]. by apply (string_app_inv_head nl).
  - change (String (ascii_of_nat 10) x = String a' (d' +:+ nl +:+ y)
            -> "" = String a' d' /\ x = y).
    intros [= <- _]. cbn in Hd'. by rewrite Ascii.eqb_refl in Hd'.
  - change (String a (d +:+ nl +:+ x) = String (ascii_of_nat 10) y
            -> String a d = "" /\ x = y).
    intros [= -> _]. cbn in Hd. by rewrite Ascii.eqb_refl in Hd.
  - change (String a (d +:+ nl +:+ x) = String a' (d' +:+ nl +:+ y)
            -> String a d = String a' d' /\ x = y).
    intros [= -> Heq]. cbn in Hd, Hd'.
    apply andb_prop in Hd as [_ Hd]. apply andb_prop in Hd' as [_ Hd'].
    destruct (IH d' Hd Hd' Heq) as [-> ->]. done.
Qed.

(** X20.  The prompt [run_subagent] builds tells the task: two tasks whose
    descriptions have no line break and which get the same prompt are the
    same task. *)
Theorem research_prompt_tells_task (task task' : Task) :
  single_line (description task) = true ->
  single_line (description task') = true ->
  research_prompt task = research_prompt task' ->
  task = task'.
Proof.
  destruct task as [d f], task' as [d' f']. unfold research_prompt.
  cbn [description focus_area]. intros Hd Hd' Heq.
  apply string_app_inv_head in Heq.
  apply single_line_split in Heq as [-> Heq]; [|done|done].
  apply string_app_inv_head in Heq. by subst.
Qed.

(** ** The further properties on examples *)

Lemma format_search_results_blocks_witness :
  Forall (fun b => is_block b = true) example_blocks
  /\ forall (i : nat) b,
       example_blocks !! i = Some b ->
       is_prefix "AI Summary: " b = true -> i = 0%nat.
Proof.
  apply (format_search_results_blocks plain_repr plain_fault_text
           example_response example_blocks).
  reflexivity.
Defined.

Lemma format_search_results_bounded_witness :
  (length example_blocks
   <= S (length (described_entries (fields example_response))))%nat.
Proof.
  apply (format_search_results_bounded plain_repr plain_fault_text
           (fields example_response) example_blocks).
  reflexivity.
Defined.

Lemma format_search_results_scalar_entry_witness :
  format_search_results plain_repr plain_fault_text broken_response
  = Raise (mk_exn TypeError (plain_fault_text (NotAContainer VNone))).
Proof.
  apply (format_search_results_scalar_entry plain_repr plain_fault_text
           (fields broken_response)
           [VDict [("title", VStr "X"); ("url", VStr "http://x");
                   ("content", VStr "Sam Altman co-founded OpenAI")]]
           [VDict [("content", VStr "untitled")]]
           VNone); reflexivity.
Defined.

Lemma format_search_results_string_results_witness :
  format_search_results plain_repr plain_fault_text text_response
  = Return ["AI Summary: Sam Altman and others"].
Proof.
  apply (format_search_results_string_results plain_repr plain_fault_text
           (fields text_response) "no results, no content"); reflexivity.
Defined.

Lemma format_search_results_reads_only_witness :
  format_search_results plain_repr plain_fault_text example_response
  = format_search_results plain_repr plain_fault_text example_response_bare.
Proof.
  apply (format_search_results_reads_only plain_repr plain_fault_text
           (fields example_response) (fields example_response_bare)
           (described_entries (fields example_response))
           (described_entries (fields example_response_bare)));
    [reflexivity|reflexivity|reflexivity|].
  repeat constructor.
Defined.

Lemma search_web_client_rejected_witness :
  search_web rejecting_client unreachable_service "founder of openai" 3
    false false "basic" keyed_world
  = (Raise (mk_exn Exception "Tavily API request failed: bad key"),
     keyed_world).
Proof.
  apply (search_web_client_rejected rejecting_client unreachable_service
           "founder of openai" 3 false false "basic" keyed_world "tvly-demo"
           (mk_exn (OtherException "InvalidAPIKeyError") "bad key"));
    [reflexivity|discriminate|reflexivity|reflexivity].
Defined.

Lemma search_web_error_kinds_witness :
  (mk_exn Exception "Tavily API request failed: network is unreachable"
   = mk_exn ValueError missing_key_message
   /\ not_key (environ keyed_world !! "TAVILY_API_KEY") = true)
  \/ (exn_cls
        (mk_exn Exception "Tavily API request failed: network is unreachable")
      = Exception
      /\ is_prefix "Tavily API request failed: "
           (exn_str
              (mk_exn Exception
                 "Tavily API request failed: network is unreachable")) = true
      /\ not_key (environ keyed_world !! "TAVILY_API_KEY") = false).
Proof.
  apply (search_web_error_kinds ready_client unreachable_service
           "founder of openai" 3 false false "basic" keyed_world
           (mk_exn Exception
              "Tavily API request failed: network is unreachable")).
  - intros e He. discriminate He.
  - intros e He. injection He as <-. reflexivity.
  - reflexivity.
Defined.

Lemma search_passes_base_exception_witness :
  fst (search_web ready_client interrupted_service "founder of openai" 3
         false false "basic" keyed_world)
  = Raise (mk_exn (BaseExceptionOnly "KeyboardInterrupt") "")
  /\ fst (search_tool plain_repr plain_fault_text ready_client
            interrupted_service "founder of openai" 3 keyed_world)
     = Raise (mk_exn (BaseExceptionOnly "KeyboardInterrupt") "").
Proof.
  apply (search_passes_base_exception plain_repr plain_fault_text
           ready_client interrupted_service "founder of openai" 3
           keyed_world "tvly-demo"
           (mk_exn (BaseExceptionOnly "KeyboardInterrupt") ""));
    [reflexivity|discriminate|reflexivity|reflexivity|reflexivity].
Defined.

Lemma search_tool_raises_no_Exception_witness :
  is_Exception (mk_exn (BaseExceptionOnly "KeyboardInterrupt") "") = false.
Proof.
  apply (search_tool_raises_no_Exception plain_repr plain_fault_text
           ready_client interrupted_service "founder of openai" 3
           keyed_world).
  reflexivity.
Defined.

Lemma search_tool_output_prefix_witness :
  is_prefix ("Web Search Query: " +:+ "founder of openai" +:+ nl +:+ nl)
    ("Error performing web search: "
     +:+ "Tavily API request failed: network is unreachable") = true
  \/ is_prefix "Error performing web search: "
       ("Error performing web search: "
        +:+ "Tavily API request failed: network is unreachable") = true.
Proof.
  apply (search_tool_output_prefix plain_repr plain_fault_text ready_client
           unreachable_service "founder of openai" 3 keyed_world).
  reflexivity.
Defined.

Lemma search_tool_malformed_response_witness :
  search_tool plain_repr plain_fault_text ready_client null_service
    "founder of openai" 3 keyed_world
  = (Return ("Error performing web search: " +:+ "fault"),
     mk_world (environ keyed_world)
       [mk_call "tvly-demo"
          (mk_request "founder of openai" 3 false false "basic")]).
Proof.
  apply (search_tool_malformed_response plain_repr plain_fault_text
           ready_client null_service "founder of openai" 3 keyed_world
           (mk_world (environ keyed_world)
              [mk_call "tvly-demo"
                 (mk_request "founder of openai" 3 false false "basic")])
           VNone (mk_exn TypeError "fault")); reflexivity.
Defined.

Lemma run_subagent_returned_aligned_witness :
  length example_findings = length (tasks example_batch)
  /\ forall (i : nat) task, tasks example_batch !! i = Some task ->
       exists r,
         final (slow_agent (0 + i) (research_prompt task)) = Return r
         /\ example_findings !! i = Some (output r).
Proof.
  apply (run_subagent_returned_aligned slow_agent [2; 2; 2; 1; 0; 0; 0]%nat
           0 example_batch example_findings).
  reflexivity.
Defined.

Lemma run_subagent_fails_fast_witness :
  exists before (j : nat) task,
    fst (run_subagent failing_agent [2; 1; 0]%nat 0 example_batch)
    = before ++ [Resumed j; Failed j]
    /\ tasks example_batch !! j = Some task
    /\ final (failing_agent (0 + j) (research_prompt task))
       = Raise (mk_exn (OtherException "UsageLimitExceeded") "request_limit")
    /\ Forall (fun ev => forall i n, ev <> Failed i /\ ev <> Returned n)
         before.
Proof.
  apply (run_subagent_fails_fast failing_agent [2; 1; 0]%nat 0 example_batch
           (mk_exn (OtherException "UsageLimitExceeded") "request_limit")).
  reflexivity.
Defined.

Lemma run_subagent_schedule_independent_witness :
  snd (run_subagent slow_agent [2; 2; 2; 1; 0; 0; 0]%nat 0 example_batch)
  = snd (run_subagent slow_agent [0; 1; 2; 0; 2; 0; 2]%nat 0 example_batch).
Proof.
  apply (run_subagent_schedule_independent slow_agent
           [2; 2; 2; 1; 0; 0; 0]%nat [0; 1; 2; 0; 2; 0; 2]%nat 0
           example_batch); reflexivity.
Defined.

Lemma run_subagent_returns_iff_covers_witness :
  snd (run_subagent slow_agent [0; 1; 2; 0; 2]%nat 0 example_batch) = Blocked.
Proof.
  refine (proj2 (run_subagent_returns_iff_covers slow_agent
                   [0; 1; 2; 0; 2]%nat 0 example_batch _) _); reflexivity.
Defined.

Lemma research_prompt_tells_task_witness :
  mk_Task "history of AISoC" "founding date"
  = mk_Task "history of AISoC" "founding date".
Proof.
  apply (research_prompt_tells_task
           (mk_Task "history of AISoC" "founding date")
           (mk_Task "history of AISoC" "founding date")); reflexivity.
Defined.
